(** * hfile_gcs: the Google Cloud Storage backend of htslib

    A shallow embedding of [htslib/hfile_gcs.c]: the access-token provider
    [get_gcs_access_token] with its process-wide cache, and the URL
    translator [gcs_rewrite] with its two entry points [gcs_open] and
    [gcs_vopen].

    Conventions of the model.
    - A C string is a [string]: the bytes in front of its terminator.
      A [const char *] that points into a string is the suffix it points
      to, or an offset into the string where the code subtracts pointers.
    - A [kstring_t] that is only appended to is the [string] built so far.
      Allocation is assumed to succeed, as the code assumes.
    - [time_t] is [Z]; [difftime (a, b)] is [a - b].
    - [assert] is compiled in: a failed assertion aborts the process.
    - What C leaves undefined (a read past a buffer, [NULL + 1]) is an
      outcome of its own and never a value. *)

From Stdlib Require Import String Ascii List ZArith Lia Bool.
Import ListNotations.

Open Scope string_scope.

(* ================================================================== *)
(** ** C strings *)

Module CStr.

(** [p + n] for a pointer [p] into a string. *)
Fixpoint drop (n : nat) (s : string) : string :=
  match n, s with
  | O, _ => s
  | S n', String _ s' => drop n' s'
  | S _, EmptyString => EmptyString
  end.

(** The [n] bytes at [p]. *)
Fixpoint take (n : nat) (s : string) : string :=
  match n, s with
  | S n', String c s' => String c (take n' s')
  | _, _ => EmptyString
  end.

(** [strchr (s, c)]: the offset of the first [c] in [s], [None] for [NULL]. *)
Fixpoint strchr (s : string) (c : ascii) : option nat :=
  match s with
  | EmptyString => None
  | String a s' =>
      if Ascii.eqb a c then Some O
      else option_map S (strchr s' c)
  end.

(** [strchr (s, c) != NULL]. *)
Definition has_char (s : string) (c : ascii) : bool :=
  match strchr s c with Some _ => true | None => false end.

(** [strcspn (s, reject)]: the length of the longest prefix of [s] that
    holds no byte of [reject]. *)
Fixpoint strcspn (s reject : string) : nat :=
  match s with
  | EmptyString => O
  | String a s' => if has_char reject a then O else S (strcspn s' reject)
  end.

(** The bytes of a string, to speak of the characters that occur in it. *)
Definition chars (s : string) : list ascii := list_ascii_of_string s.

End CStr.

(* ================================================================== *)
(** ** kstring *)

Module KString.

Definition kputs (s : string) (k : string) : string := k ++ s.

Definition kputc (c : ascii) (k : string) : string := k ++ String c "".

Definition kputsn (p : string) (n : nat) (k : string) : string :=
  k ++ CStr.take n p.

End KString.

(* ================================================================== *)
(** ** The rewritten URL (gcs_rewrite, lines 105 to 125) *)

Import CStr KString.

(** [while ( *bucket == '/') kputc ( *bucket++, &url);] *)
Fixpoint copy_slashes (bucket url : string) : string * string :=
  match bucket with
  | String "/" rest => copy_slashes rest (kputc "/" url)
  | _ => (bucket, url)
  end.

(** The host suffix chosen from the mode (lines 120 to 122). *)
Definition put_storage_host (mode : string) (url : string) : string :=
  if has_char mode "r" then kputs ".storage-download" url
  else if has_char mode "w" then kputs ".storage-upload" url
  else kputs ".storage" url.

(** The scheme part (lines 107 to 114): the pointer [bucket] and [url] so
    far.  [gsurl[2]] is read first, so the string must reach that far;
    [&gsurl[3]] must still lie within it; and [strchr] must find a colon,
    behind the [+], for [bucket - &gsurl[3]] to be a length.  A string that
    fails one of these was not handed over for one of the registered
    schemes, and gets no value here. *)
Definition scheme_part (gsurl : string) : option (string * string) :=
  let url := "" in
  match String.get 2 gsurl with
  | None => None
  | Some c =>
      if Ascii.eqb c "+" then
        match strchr gsurl ":" with
        | None => None
        | Some i =>
            if (i <? 3)%nat then None
            else
              let bucket := S i in
              Some (drop bucket gsurl, kputsn (drop 3 gsurl) (bucket - 3) url)
        end
      else Some (drop 3 gsurl, kputs "https:" url)
  end.

(** Lines 105 to 125: the contents of [url] when the opener is called. *)
Definition rewritten_url (gsurl mode : string) : option string :=
  match scheme_part gsurl with
  | None => None
  | Some (bucket, url) =>
      let '(bucket, url) := copy_slashes bucket url in
      let n := strcspn bucket "/?#" in
      let path := drop n bucket in
      let url := kputsn bucket n url in
      let url := put_storage_host mode url in
      let url := kputs ".googleapis.com" url in
      let url := kputs path url in
      Some url
  end.

(* ================================================================== *)
(** ** The process as one call finds it *)

(** The environment block: [NAME=value] entries, first match wins. *)
Definition environ : Type := list (string * string).

Fixpoint getenv (name : string) (env : environ) : option string :=
  match env with
  | [] => None
  | (n, v) :: env' => if String.eqb n name then Some v else getenv name env'
  end.

(** What [popen] and [kgetline] deliver to one refresh: [popen] returns
    [NULL]; or the stream is there and [kgetline] returns [EOF]; or it
    returns 0 and [text.s] holds the line without its line end. *)
Inductive subprocess : Type :=
| PopenFails
| NoLine
| Line (text : string).

(** [time_check] is the reading of [time (NULL)] at line 74, [time_store]
    the one at line 85. *)
Record world : Type := mkWorld {
  env : environ;
  hts_verbose : Z;
  time_check : Z;
  time_store : Z;
  gcloud : subprocess
}.

(** The two statics (lines 46 and 71).  [gcs_access_token] holds the bytes
    of the array in front of its first zero byte. *)
Record statics : Type := mkStatics {
  gcs_access_token : string;
  last_access : Z
}.

Definition initial_statics : statics :=
  {| gcs_access_token := ""; last_access := 0 |}.

Definition MAX_GCS_TOKEN_SIZE : nat := 2048.
Definition MAX_SERVICE_TOKEN_DURATION : Z := 3540.

Inductive outcome (A : Type) : Type :=
| Returns (a : A) (st : statics)   (* the value returned, the statics left *)
| Aborts                           (* a failed [assert] *)
| Undefined.                       (* behaviour C does not define *)

Arguments Returns {A} a st.
Arguments Aborts {A}.
Arguments Undefined {A}.

(** One argument of a variadic [hopen] call. *)
#[warnings="-register-all"]
Inductive hopen_arg : Type :=
| ArgStr (s : string)
| ArgNull
| ArgVaList (argsp : option (list hopen_arg)).

Definition va_list : Type := list hopen_arg.

(** [hopen (url, mode, args...)]; the two-argument call has no [args]. *)
Record hopen_call : Type := mkCall {
  call_url : string;
  call_mode : string;
  call_args : list hopen_arg
}.

Inductive event : Type :=
| EvLock
| EvUnlock
| EvPopen (command : string)
| EvPclose
| EvStderr (message : string)
| EvHopen (call : hopen_call).

(* ================================================================== *)
(** ** get_gcs_access_token (lines 48 to 92) *)

(** Line 74. *)
Definition refresh_due (w : world) (st : statics) : bool :=
  (last_access st =? 0)%Z
  || (negb (last_access st =? 0)%Z
      && (time_check w - last_access st >? MAX_SERVICE_TOKEN_DURATION)%Z).

(** [memset (&gcs_access_token[0], 0, sizeof gcs_access_token)]. *)
Definition memset_token (st : statics) : statics :=
  {| gcs_access_token := ""; last_access := last_access st |}.

(** [strncpy (gcs_access_token, src, MAX_GCS_TOKEN_SIZE)] into the zeroed
    array: at most that many bytes of [src], and no terminator when [src]
    has that many or more. *)
Definition strncpy_token (src : string) (st : statics) : statics :=
  {| gcs_access_token := take MAX_GCS_TOKEN_SIZE src;
     last_access := last_access st |}.

Definition set_last_access (t : Z) (st : statics) : statics :=
  {| gcs_access_token := gcs_access_token st; last_access := t |}.

Definition print_access_token : string :=
  "gcloud auth application-default print-access-token".

(** Lines 73 to 88: [None] when the assertion fails. *)
Definition locked_section (w : world) (st : statics)
  : option statics * list event :=
  if refresh_due w st then
    match gcloud w with
    | PopenFails =>
        (Some st, [EvLock; EvPopen print_access_token; EvUnlock])
    | NoLine =>
        let st := memset_token st in
        let st := set_last_access (time_store w) st in
        (Some st, [EvLock; EvPopen print_access_token; EvUnlock])
    | Line text =>
        let st := memset_token st in
        if (String.length text <=? MAX_GCS_TOKEN_SIZE)%nat then
          let st := strncpy_token text st in
          let st := set_last_access (time_store w) st in
          (Some st, [EvLock; EvPopen print_access_token; EvPclose; EvUnlock])
        else
          (None, [EvLock; EvPopen print_access_token; EvPclose])
    end
  else (Some st, [EvLock; EvUnlock]).

(** Line 91.  [strlen] stops at the first zero byte of the array; an array
    filled to its last byte has none. *)
Definition return_cached (st : statics) : outcome (option string) :=
  let token := gcs_access_token st in
  if (MAX_GCS_TOKEN_SIZE <=? String.length token)%nat then Undefined
  else if (0 <? String.length token)%nat then Returns (Some token) st
  else Returns None st.

Definition get_gcs_access_token (w : world) (st : statics)
  : outcome (option string) * list event :=
  match getenv "GCS_OAUTH_TOKEN" (env w) with
  | Some token => (Returns (Some token) st, [])
  | None =>
      match getenv "HTS_AUTH_LOCATION" (env w) with
      | Some _ => (Returns None st, [])
      | None =>
          match getenv "GOOGLE_APPLICATION_CREDENTIALS" (env w) with
          | Some _ =>
              match locked_section w st with
              | (Some st', tr) => (return_cached st', tr)
              | (None, tr) => (Aborts, tr)
              end
          | None => (return_cached st, [])
          end
      end
  end.

(** The number of times the credential command is started. *)
Fixpoint popen_count (tr : list event) : nat :=
  match tr with
  | [] => O
  | EvPopen _ :: tr' => S (popen_count tr')
  | _ :: tr' => popen_count tr'
  end.

(* ================================================================== *)
(** ** gcs_rewrite (lines 94 to 175) *)

Definition LF : string := String (ascii_of_nat 10) "".

(** Lines 132 to 135 and 139 to 142: a header is built only when its
    value was found. *)
Definition build_hdr (name : string) (value : option string) : string :=
  match value with
  | Some v => kputs v (kputs name "")
  | None => ""
  end.

Definition is_null {A : Type} (p : option A) : bool :=
  match p with Some _ => false | None => true end.

(** Lines 144 to 168: the call made to the opener. *)
Definition choose_call (url mode : string) (mode_has_colon : Z)
    (argsp : option va_list) (auth_hdr requester_pays_hdr : string)
  : hopen_call :=
  if negb (is_null argsp) || negb (mode_has_colon =? 0)%Z
     || (0 <? String.length auth_hdr)%nat
     || (0 <? String.length requester_pays_hdr)%nat
  then
    let mode :=
      if (mode_has_colon =? 0)%Z then kputc ":" (kputs mode "") else mode in
    if (0 <? String.length auth_hdr)%nat
       && (0 <? String.length requester_pays_hdr)%nat
    then
      mkCall url mode
        [ArgStr "va_list"; ArgVaList argsp; ArgStr "httphdr:l";
         ArgStr auth_hdr; ArgStr requester_pays_hdr; ArgNull; ArgNull]
    else
      mkCall url mode
        [ArgStr "va_list"; ArgVaList argsp; ArgStr "httphdr";
         (if (0 <? String.length auth_hdr)%nat
          then ArgStr auth_hdr else ArgNull);
         ArgNull]
  else mkCall url mode [].

Section Opener.

(** The handle type and the generic opener [hopen] belong to the host;
    [None] is its [NULL]. *)
Variable hFILE : Type.
Variable hopen : hopen_call -> option hFILE.

Definition gcs_rewrite (w : world) (st : statics) (gsurl mode : string)
    (mode_has_colon : Z) (argsp : option va_list)
  : outcome (option hFILE) * list event :=
  match rewritten_url gsurl mode with
  | None => (Undefined, [])
  | Some url =>
      let log :=
        if (hts_verbose w >=? 8)%Z
        then [EvStderr ("[M::gcs_open] rewrote URL as " ++ url ++ LF)]
        else [] in
      match get_gcs_access_token w st with
      | (Returns access_token st', tr) =>
          let auth_hdr := build_hdr "Authorization: Bearer " access_token in
          let requester_pays_project :=
            getenv "GCS_REQUESTER_PAYS_PROJECT" (env w) in
          let requester_pays_hdr :=
            build_hdr "X-Goog-User-Project: " requester_pays_project in
          let call :=
            choose_call url mode mode_has_colon argsp
              auth_hdr requester_pays_hdr in
          let fp := hopen call in
          (Returns fp st', (log ++ tr ++ [EvHopen call])%list)
      | (Aborts, tr) => (Aborts, (log ++ tr)%list)
      | (Undefined, tr) => (Undefined, (log ++ tr)%list)
      end
  end.

Definition gcs_open (w : world) (st : statics) (url mode : string) :=
  gcs_rewrite w st url mode 0 None.

Definition gcs_vopen (w : world) (st : statics) (url mode_colon : string)
    (args0 : va_list) :=
  gcs_rewrite w st url mode_colon 1 (Some args0).

End Opener.

Arguments gcs_rewrite {hFILE} hopen w st gsurl mode mode_has_colon argsp.
Arguments gcs_open {hFILE} hopen w st url mode.
Arguments gcs_vopen {hFILE} hopen w st url mode_colon args0.

(** The schemes [hfile_plugin_init] registers the handler for. *)
Definition registered_schemes : list string := ["gs"; "gs+http"; "gs+https"].

(** The host hands a URL to the handler of the scheme in front of its
    first colon. *)
Definition has_registered_scheme (gsurl : string) : Prop :=
  exists scheme rest,
    In scheme registered_schemes /\ gsurl = scheme ++ ":" ++ rest.

(** Modelled from the spec: the generic opener's reading of its variadic
    options, whose code is not among the sources.  A [va_list] option
    carries the caller's own arguments; [httphdr:l] is followed by header
    lines up to a terminator; [httphdr] is followed by one header line or
    by nothing ([NULL]); a terminator ends the options.  The result is the
    header lines this call itself hands over. *)
Fixpoint httphdr_of (in_list : bool) (args : list hopen_arg) : list string :=
  match args with
  | [] => []
  | ArgNull :: rest => if in_list then httphdr_of false rest else []
  | ArgVaList _ :: _ => []
  | ArgStr s :: rest =>
      if in_list then s :: httphdr_of true rest
      else if String.eqb s "httphdr:l" then httphdr_of true rest
      else if String.eqb s "httphdr" then
        match rest with
        | ArgStr h :: rest' => h :: httphdr_of false rest'
        | ArgNull :: rest' => httphdr_of false rest'
        | _ => []
        end
      else if String.eqb s "va_list" then
        match rest with
        | _ :: rest' => httphdr_of false rest'
        | [] => []
        end
      else []
  end.

Definition headers_passed (c : hopen_call) : list string :=
  httphdr_of false (call_args c).

(* ================================================================== *)
(** ** Vocabulary of the statements *)

(** The bytes that end the bucket: the reject set of line 117. *)
Definition delimiter (c : ascii) : Prop :=
  c = "/"%char \/ c = "?"%char \/ c = "#"%char.

(** [bucket] and [path] are the two parts of the text behind [://]: no
    delimiter in [bucket]; [path] is empty or starts at a delimiter; and
    the text does not open with one more slash. *)
Definition splits_at_delimiter (bucket path : string) : Prop :=
  (forall c, In c (chars bucket) -> ~ delimiter c)
  /\ (path = ""
      \/ exists c p, path = String c p /\ delimiter c
                     /\ (bucket = "" -> c <> "/"%char)).

(** The URL schemes of the claim and the transport each one selects. *)
Definition scheme_transport : list (string * string) :=
  [("gs", "https"); ("gs+http", "http"); ("gs+https", "https")].

(** [<transport>://<bucket>.<host>.googleapis.com<path>]. *)
Definition target (transport bucket host path : string) : string :=
  transport ++ "://" ++ bucket ++ "." ++ host ++ ".googleapis.com" ++ path.

(** The cached value if it is not empty, else no token. *)
Definition cached_value (st : statics) : option string :=
  if String.eqb (gcs_access_token st) "" then None
  else Some (gcs_access_token st).

(** The three signals that select a branch of the provider. *)
Definition override_token (w : world) : option string :=
  getenv "GCS_OAUTH_TOKEN" (env w).

Definition auth_delegation (w : world) : option string :=
  getenv "HTS_AUTH_LOCATION" (env w).

Definition credentials_path (w : world) : option string :=
  getenv "GOOGLE_APPLICATION_CREDENTIALS" (env w).

(** The age of the cache at the check of line 74. *)
Definition age (w : world) (st : statics) : Z :=
  (time_check w - last_access st)%Z.

(** [n] copies of one byte. *)
Fixpoint filled (n : nat) (c : ascii) : string :=
  match n with
  | O => ""
  | S n' => String c (filled n' c)
  end.

(** The number of times the opener is called. *)
Fixpoint hopen_count (tr : list event) : nat :=
  match tr with
  | [] => O
  | EvHopen _ :: tr' => S (hopen_count tr')
  | _ :: tr' => hopen_count tr'
  end.


(** The worlds and statics of the examples below. *)
Definition credentials_env : environ :=
  [("GOOGLE_APPLICATION_CREDENTIALS", "/etc/gcs/key.json")].

Definition minted_at_1000 : statics :=
  {| gcs_access_token := "ya29.first"; last_access := 1000 |}.

(** A stand-in for the host's opener in the examples: it fails on a mode
    without a letter and hands back the URL otherwise. *)
Definition sample_hopen (c : hopen_call) : option string :=
  match call_mode c with
  | "" => None
  | String ":" _ => None
  | _ => Some (call_url c)
  end.

(** The calls made to the opener, in order. *)
Fixpoint opener_calls (tr : list event) : list hopen_call :=
  match tr with
  | [] => []
  | EvHopen c :: tr' => c :: opener_calls tr'
  | _ :: tr' => opener_calls tr'
  end.

(** Successive calls of the provider in one process, each in the world it
    finds, each starting from the statics the one before left; [None] once
    a call does not return. *)
Fixpoint run (ws : list world) (st : statics) : option statics :=
  match ws with
  | [] => Some st
  | w :: ws' =>
      match fst (get_gcs_access_token w st) with
      | Returns _ st' => run ws' st'
      | _ => None
      end
  end.

(** The mode an options call is made with (lines 145 to 149). *)
Definition with_colon (mode : string) (mode_has_colon : Z) : string :=
  if (mode_has_colon =? 0)%Z then mode ++ ":" else mode.

(* ================================================================== *)
(** ** The model at work *)

Example rewritten_url_read :
  rewritten_url "gs://my-bucket/dir/obj.bam" "r"
  = Some "https://my-bucket.storage-download.googleapis.com/dir/obj.bam".
Proof. reflexivity. Qed.

Example rewritten_url_plus_http :
  rewritten_url "gs+http://b/o?x=1#f" "wb"
  = Some "http://b.storage-upload.googleapis.com/o?x=1#f".
Proof. reflexivity. Qed.

Example rewritten_url_three_slashes :
  rewritten_url "gs:///obj" "r"
  = Some "https:///obj.storage-download.googleapis.com".
Proof. reflexivity. Qed.

Example httphdr_list_read :
  httphdr_of false
    [ArgStr "va_list"; ArgVaList None; ArgStr "httphdr:l";
     ArgStr "A: 1"; ArgStr "B: 2"; ArgNull; ArgNull]
  = ["A: 1"; "B: 2"].
Proof. reflexivity. Qed.

Example open_without_environment :
  gcs_open sample_hopen (mkWorld [] 0 1000 1000 PopenFails) initial_statics
    "gs://my-bucket/dir/obj.bam" "r"
  = (Returns
       (Some "https://my-bucket.storage-download.googleapis.com/dir/obj.bam")
       initial_statics,
     [EvHopen
        (mkCall "https://my-bucket.storage-download.googleapis.com/dir/obj.bam"
           "r" [])]).
Proof. reflexivity. Qed.

Example open_with_token_and_project :
  snd (gcs_open sample_hopen
         (mkWorld [("GCS_OAUTH_TOKEN", "ya29.override");
                   ("GCS_REQUESTER_PAYS_PROJECT", "proj-123")]
            0 1000 1000 PopenFails)
         initial_statics "gs://my-bucket/dir/obj.bam" "r")
  = [EvHopen
       (mkCall "https://my-bucket.storage-download.googleapis.com/dir/obj.bam"
          "r:"
          [ArgStr "va_list"; ArgVaList None; ArgStr "httphdr:l";
           ArgStr "Authorization: Bearer ya29.override";
           ArgStr "X-Goog-User-Project: proj-123"; ArgNull; ArgNull])].
Proof. reflexivity. Qed.

Example vopen_keeps_mode :
  snd (gcs_vopen sample_hopen (mkWorld [] 9 1000 1000 PopenFails)
         initial_statics "gs://b/o" "w:" [ArgStr "httphdr"; ArgStr "A: 1"; ArgNull])
  = [EvStderr ("[M::gcs_open] rewrote URL as https://b.storage-upload.googleapis.com/o" ++ LF);
     EvHopen
       (mkCall "https://b.storage-upload.googleapis.com/o" "w:"
          [ArgStr "va_list";
           ArgVaList (Some [ArgStr "httphdr"; ArgStr "A: 1"; ArgNull]);
           ArgStr "httphdr"; ArgNull; ArgNull])].
Proof. reflexivity. Qed.

Example first_refresh :
  get_gcs_access_token
    (mkWorld credentials_env 0 1000 1000 (Line "ya29.first")) initial_statics
  = (Returns (Some "ya29.first") minted_at_1000,
     [EvLock; EvPopen print_access_token; EvPclose; EvUnlock]).
Proof. reflexivity. Qed.

(* ================================================================== *)
(** ** Facts about C strings *)

Section CStrFacts.

Lemma append_assoc (a b c : string) : (a ++ b) ++ c = a ++ (b ++ c).
Proof.
  induction a as [|x a IH]; simpl; [reflexivity | now rewrite IH].
Qed.

Lemma append_empty_r (a : string) : a ++ "" = a.
Proof.
  induction a as [|x a IH]; simpl; [reflexivity | now rewrite IH].
Qed.

Lemma take_append (a b : string) : take (String.length a) (a ++ b) = a.
Proof.
  induction a as [|x a IH]; simpl.
  - now destruct b.
  - now rewrite IH.
Qed.

Lemma drop_append (a b : string) : drop (String.length a) (a ++ b) = b.
Proof.
  induction a as [|x a IH]; simpl; auto.
Qed.

Lemma take_all (n : nat) (s : string) :
  (String.length s <= n)%nat -> take n s = s.
Proof.
  revert n; induction s as [|x s IH]; intros [|n] H; simpl in *;
    try reflexivity; try lia.
  rewrite IH; [reflexivity | lia].
Qed.

Lemma length_take (n : nat) (s : string) :
  String.length (take n s) = Nat.min n (String.length s).
Proof.
  revert n; induction s as [|x s IH]; intros [|n]; simpl; auto.
Qed.

Lemma strchr_found (s : string) (c : ascii) :
  In c (chars s) -> exists i, strchr s c = Some i.
Proof.
  induction s as [|a s IH]; simpl; [tauto|].
  intros [-> | H].
  - rewrite Ascii.eqb_refl. now exists O.
  - destruct (Ascii.eqb a c); [now exists O|].
    destruct (IH H) as [i ->]. now exists (S i).
Qed.

Lemma strchr_absent (s : string) (c : ascii) :
  ~ In c (chars s) -> strchr s c = None.
Proof.
  induction s as [|a s IH]; simpl; [reflexivity|].
  intros H. destruct (Ascii.eqb_spec a c) as [-> | _]; [tauto|].
  rewrite IH; [reflexivity | tauto].
Qed.

Lemma has_char_true (s : string) (c : ascii) :
  In c (chars s) -> has_char s c = true.
Proof.
  intros H. unfold has_char. now destruct (strchr_found s c H) as [i ->].
Qed.

Lemma has_char_false (s : string) (c : ascii) :
  ~ In c (chars s) -> has_char s c = false.
Proof.
  intros H. unfold has_char. now rewrite strchr_absent.
Qed.

(** The first [c] of [a ++ c :: b] when [a] holds none. *)
Lemma strchr_append (a b : string) (c : ascii) :
  ~ In c (chars a) -> strchr (a ++ String c b) c = Some (String.length a).
Proof.
  induction a as [|x a IH]; simpl; intros H.
  - now rewrite Ascii.eqb_refl.
  - destruct (Ascii.eqb_spec x c) as [-> | _]; [tauto|].
    rewrite IH; [reflexivity | tauto].
Qed.

End CStrFacts.

(* ================================================================== *)
(** ** The shape of the rewritten URL *)

Section UrlShape.

Lemma delimiter_has_char (c : ascii) :
  has_char "/?#" c = true <-> delimiter c.
Proof.
  unfold delimiter, has_char; cbn -[Ascii.eqb].
  destruct (Ascii.eqb_spec "/" c) as [<- | H1]; [tauto|].
  destruct (Ascii.eqb_spec "?" c) as [<- | H2]; [tauto|].
  destruct (Ascii.eqb_spec "#" c) as [<- | H3]; [tauto|].
  cbn. split; [discriminate|]. intros [E | [E | E]]; congruence.
Qed.

Lemma not_delimiter_has_char (c : ascii) :
  ~ delimiter c -> has_char "/?#" c = false.
Proof.
  intros H. destruct (has_char "/?#" c) eqn:E; [|reflexivity].
  now apply delimiter_has_char in E.
Qed.

Lemma strcspn_bucket (bucket path : string) :
  (forall c, In c (chars bucket) -> ~ delimiter c) ->
  (path = "" \/ exists c p, path = String c p /\ delimiter c) ->
  strcspn (bucket ++ path) "/?#" = String.length bucket.
Proof.
  intros Hb Hp. induction bucket as [|x b IH]; simpl.
  - destruct Hp as [-> | (c & p & -> & Hc)]; [reflexivity|].
    simpl. apply delimiter_has_char in Hc. now rewrite Hc.
  - rewrite not_delimiter_has_char by (apply Hb; simpl; auto).
    f_equal. apply IH. intros c Hc. apply Hb. simpl. auto.
Qed.

(** The loop of line 115 stops at once where no slash follows. *)
Lemma copy_slashes_none (bucket path url : string) :
  splits_at_delimiter bucket path ->
  copy_slashes (bucket ++ path) url = (bucket ++ path, url).
Proof.
  intros [Hb Hp]. destruct bucket as [|x b]; simpl.
  - destruct Hp as [-> | (c & p & -> & _ & Hc)]; [reflexivity|].
    specialize (Hc eq_refl). simpl.
    destruct c as [[] [] [] [] [] [] [] []]; try reflexivity.
    now elim Hc.
  - assert (Hx : ~ delimiter x) by (apply Hb; simpl; auto).
    destruct x as [[] [] [] [] [] [] [] []]; try reflexivity.
    elim Hx. now left.
Qed.

(** Lines 115 to 125 once the scheme part is done. *)
Lemma rest_of_url (bucket path url mode : string) :
  splits_at_delimiter bucket path ->
  (let '(b, u) := copy_slashes (bucket ++ path) url in
   let n := strcspn b "/?#" in
   Some (kputs (drop n b)
           (kputs ".googleapis.com" (put_storage_host mode (kputsn b n u)))))
  = Some (kputs path
            (kputs ".googleapis.com"
               (put_storage_host mode (url ++ bucket)))).
Proof.
  intros H. rewrite copy_slashes_none by exact H.
  destruct H as [Hb Hp].
  cbv zeta. rewrite strcspn_bucket.
  - unfold kputsn. now rewrite take_append, drop_append.
  - exact Hb.
  - destruct Hp as [-> | (c & p & -> & Hc & _)]; [now left|].
    right. now exists c, p.
Qed.

Lemma scheme_part_gs (rest : string) :
  scheme_part ("gs://" ++ rest) = Some ("//" ++ rest, "https:").
Proof. reflexivity. Qed.

Lemma scheme_part_gs_http (rest : string) :
  scheme_part ("gs+http://" ++ rest) = Some ("//" ++ rest, "http:").
Proof. reflexivity. Qed.

Lemma scheme_part_gs_https (rest : string) :
  scheme_part ("gs+https://" ++ rest) = Some ("//" ++ rest, "https:").
Proof. reflexivity. Qed.

(** The two slashes behind the colon go to [url]. *)
Lemma copy_two_slashes (rest url : string) :
  copy_slashes ("//" ++ rest) url = copy_slashes rest (url ++ "//").
Proof.
  simpl. unfold kputc. now rewrite append_assoc.
Qed.

Lemma rewritten_url_shape (scheme transport bucket path mode : string) :
  In (scheme, transport) scheme_transport ->
  splits_at_delimiter bucket path ->
  rewritten_url (scheme ++ "://" ++ bucket ++ path) mode
  = Some (kputs path
            (kputs ".googleapis.com"
               (put_storage_host mode (transport ++ "://" ++ bucket)))).
Proof.
  intros Hs H.
  unfold scheme_transport in Hs. simpl in Hs.
  destruct Hs as [E | [E | [E | []]]]; inversion E; subst; clear E;
    unfold rewritten_url.
  - change ("gs" ++ "://" ++ bucket ++ path) with ("gs://" ++ (bucket ++ path)).
    rewrite scheme_part_gs, copy_two_slashes.
    exact (rest_of_url bucket path "https://" mode H).
  - change ("gs+http" ++ "://" ++ bucket ++ path)
      with ("gs+http://" ++ (bucket ++ path)).
    rewrite scheme_part_gs_http, copy_two_slashes.
    exact (rest_of_url bucket path "http://" mode H).
  - change ("gs+https" ++ "://" ++ bucket ++ path)
      with ("gs+https://" ++ (bucket ++ path)).
    rewrite scheme_part_gs_https, copy_two_slashes.
    exact (rest_of_url bucket path "https://" mode H).
Qed.

Lemma storage_host_read (mode url : string) :
  In "r"%char (chars mode) ->
  put_storage_host mode url = url ++ ".storage-download".
Proof.
  intros H. unfold put_storage_host. now rewrite has_char_true.
Qed.

Lemma storage_host_write (mode url : string) :
  ~ In "r"%char (chars mode) -> In "w"%char (chars mode) ->
  put_storage_host mode url = url ++ ".storage-upload".
Proof.
  intros Hr Hw. unfold put_storage_host.
  now rewrite has_char_false, has_char_true.
Qed.

Lemma storage_host_other (mode url : string) :
  ~ In "r"%char (chars mode) -> ~ In "w"%char (chars mode) ->
  put_storage_host mode url = url ++ ".storage".
Proof.
  intros Hr Hw. unfold put_storage_host.
  now rewrite !has_char_false.
Qed.

(** The appends of lines 119 to 125 in the order of [target]. *)
Lemma target_appends (transport bucket host path : string) :
  kputs path
    (kputs ".googleapis.com" ((transport ++ "://" ++ bucket) ++ "." ++ host))
  = target transport bucket host path.
Proof.
  unfold kputs, target. now rewrite !append_assoc.
Qed.

End UrlShape.

(* ================================================================== *)
(** ** The target URL and the mode *)

(** C3.  For an input [gs://bucket/path], [gs+http://bucket/path] or
    [gs+https://bucket/path], where [bucket] runs to the first of [/], [?]
    and [#] and [path] is everything from there on (the text behind the
    two slashes not opening with a third), and for every mode, the URL
    built is [<transport>://<bucket>.<host>.googleapis.com<path>]:
    the transport is [https] for [gs] and the subscheme otherwise, and the
    host is [storage-download] when the mode holds an [r], else
    [storage-upload] when it holds a [w], else [storage]. *)
Theorem rewritten_url_target (scheme transport bucket path mode : string) :
  In (scheme, transport) scheme_transport ->
  splits_at_delimiter bucket path ->
  exists host,
    rewritten_url (scheme ++ "://" ++ bucket ++ path) mode
    = Some (target transport bucket host path)
    /\ (In "r"%char (chars mode) -> host = "storage-download")
    /\ (~ In "r"%char (chars mode) -> In "w"%char (chars mode) ->
        host = "storage-upload")
    /\ (~ In "r"%char (chars mode) -> ~ In "w"%char (chars mode) ->
        host = "storage").
Proof.
  intros Hs H. rewrite (rewritten_url_shape _ _ _ _ mode Hs H).
  destruct (in_dec ascii_dec "r"%char (chars mode)) as [Hr | Hr];
    [| destruct (in_dec ascii_dec "w"%char (chars mode)) as [Hw | Hw]].
  - exists "storage-download". rewrite storage_host_read by exact Hr.
    split; [| tauto].
    exact (f_equal Some (target_appends transport bucket _ path)).
  - exists "storage-upload". rewrite storage_host_write by assumption.
    split; [| tauto].
    exact (f_equal Some (target_appends transport bucket _ path)).
  - exists "storage". rewrite storage_host_other by assumption.
    split; [| tauto].
    exact (f_equal Some (target_appends transport bucket _ path)).
Qed.

Lemma splits_my_bucket : splits_at_delimiter "my-bucket" "/dir/obj.bam?x=1#top".
Proof.
  split.
  - intros c Hc [E | [E | E]]; subst c; simpl in Hc;
      repeat (destruct Hc as [Hc | Hc]; [discriminate Hc|]); exact Hc.
  - right. exists "/"%char, "dir/obj.bam?x=1#top".
    split; [reflexivity|]. split; [now left | discriminate].
Defined.

Lemma rewritten_url_target_witness :
  exists host,
    rewritten_url "gs+http://my-bucket/dir/obj.bam?x=1#top" "wb"
    = Some (target "http" "my-bucket" host "/dir/obj.bam?x=1#top")
    /\ host = "storage-upload".
Proof.
  destruct (rewritten_url_target "gs+http" "http" "my-bucket"
              "/dir/obj.bam?x=1#top" "wb") as (host & E & _ & Hw & _).
  - simpl. right. left. reflexivity.
  - exact splits_my_bucket.
  - exists host. split; [exact E|]. apply Hw.
    + simpl. intros [H | [H | H]]; [discriminate H | discriminate H | exact H].
    + simpl. left. reflexivity.
Defined.

(** C9 (as amended).  A mode that holds both an [r] and a [w] is a read
    mode for the host rule: the host is the download one, as for every
    mode that holds an [r]. *)
Theorem read_write_mode_is_download
    (scheme transport bucket path mode : string) :
  In (scheme, transport) scheme_transport ->
  splits_at_delimiter bucket path ->
  In "r"%char (chars mode) ->
  In "w"%char (chars mode) ->
  rewritten_url (scheme ++ "://" ++ bucket ++ path) mode
  = Some (target transport bucket "storage-download" path).
Proof.
  intros Hs H Hr _. rewrite (rewritten_url_shape _ _ _ _ mode Hs H).
  rewrite storage_host_read by exact Hr.
  exact (f_equal Some (target_appends transport bucket _ path)).
Qed.

Lemma read_write_mode_is_download_witness :
  rewritten_url "gs://my-bucket/dir/obj.bam?x=1#top" "rw"
  = Some "https://my-bucket.storage-download.googleapis.com/dir/obj.bam?x=1#top".
Proof.
  apply (read_write_mode_is_download "gs" "https" "my-bucket"
           "/dir/obj.bam?x=1#top" "rw").
  - simpl. left. reflexivity.
  - exact splits_my_bucket.
  - simpl. left. reflexivity.
  - simpl. right. left. reflexivity.
Defined.

(** C9 as stated fails: mode [rw] holds both letters and the host is not
    the neutral one. *)
Lemma read_write_mode_not_neutral :
  In "r"%char (chars "rw") /\ In "w"%char (chars "rw")
  /\ rewritten_url "gs://b/o" "rw"
     = Some "https://b.storage-download.googleapis.com/o"
  /\ rewritten_url "gs://b/o" "rw" <> Some (target "https" "b" "storage" "/o").
Proof.
  repeat split.
  - simpl. left. reflexivity.
  - simpl. right. left. reflexivity.
  - vm_compute. intros H. discriminate H.
Qed.

(* ================================================================== *)
(** ** The token provider *)

Section ProviderFacts.

Lemma refresh_due_false (w : world) (st : statics) :
  last_access st <> 0%Z ->
  (age w st <= MAX_SERVICE_TOKEN_DURATION)%Z ->
  refresh_due w st = false.
Proof.
  unfold refresh_due, age, MAX_SERVICE_TOKEN_DURATION. intros H0 Hage.
  destruct (Z.eqb_spec (last_access st) 0) as [E | _]; [contradiction|].
  simpl. rewrite Z.gtb_ltb. apply Z.ltb_ge. exact Hage.
Qed.

Lemma refresh_due_true (w : world) (st : statics) :
  last_access st = 0%Z \/ (age w st > MAX_SERVICE_TOKEN_DURATION)%Z ->
  refresh_due w st = true.
Proof.
  unfold refresh_due, age, MAX_SERVICE_TOKEN_DURATION. intros H.
  destruct (Z.eqb_spec (last_access st) 0) as [E | N]; [reflexivity|].
  simpl. destruct H as [H | H]; [contradiction|].
  rewrite Z.gtb_ltb. apply Z.ltb_lt. lia.
Qed.

(** Line 91 on a terminated array. *)
Lemma return_cached_value (st : statics) :
  (String.length (gcs_access_token st) < MAX_GCS_TOKEN_SIZE)%nat ->
  return_cached st = Returns (cached_value st) st.
Proof.
  intros H. unfold return_cached, cached_value.
  destruct (Nat.leb_spec MAX_GCS_TOKEN_SIZE (String.length (gcs_access_token st)))
    as [L | _]; [lia|].
  destruct (gcs_access_token st); reflexivity.
Qed.

Lemma return_cached_keeps (st : statics) (r : option string) (st' : statics) :
  return_cached st = Returns r st' -> st' = st.
Proof.
  unfold return_cached.
  destruct (MAX_GCS_TOKEN_SIZE <=? _)%nat; [discriminate|].
  destruct (0 <? _)%nat; intros H; now inversion H.
Qed.

(** With neither override nor delegation, a call is the locked section,
    if the credentials path is set, and then line 91. *)
Lemma provider_with_credentials (w : world) (st : statics) (path : string) :
  override_token w = None ->
  auth_delegation w = None ->
  credentials_path w = Some path ->
  get_gcs_access_token w st
  = match locked_section w st with
    | (Some st', tr) => (return_cached st', tr)
    | (None, tr) => (Aborts, tr)
    end.
Proof.
  unfold override_token, auth_delegation, credentials_path,
    get_gcs_access_token.
  now intros -> -> ->.
Qed.

Lemma provider_without_credentials (w : world) (st : statics) :
  override_token w = None ->
  auth_delegation w = None ->
  credentials_path w = None ->
  get_gcs_access_token w st = (return_cached st, []).
Proof.
  unfold override_token, auth_delegation, credentials_path,
    get_gcs_access_token.
  now intros -> -> ->.
Qed.

Lemma locked_fresh (w : world) (st : statics) :
  refresh_due w st = false ->
  locked_section w st = (Some st, [EvLock; EvUnlock]).
Proof. unfold locked_section. now intros ->. Qed.

Lemma locked_popen_fails (w : world) (st : statics) :
  refresh_due w st = true ->
  gcloud w = PopenFails ->
  locked_section w st
  = (Some st, [EvLock; EvPopen print_access_token; EvUnlock]).
Proof. unfold locked_section. now intros -> ->. Qed.

Lemma locked_no_line (w : world) (st : statics) :
  refresh_due w st = true ->
  gcloud w = NoLine ->
  locked_section w st
  = (Some {| gcs_access_token := ""; last_access := time_store w |},
     [EvLock; EvPopen print_access_token; EvUnlock]).
Proof. unfold locked_section. now intros -> ->. Qed.

Lemma locked_line (w : world) (st : statics) (text : string) :
  refresh_due w st = true ->
  gcloud w = Line text ->
  (String.length text <= MAX_GCS_TOKEN_SIZE)%nat ->
  locked_section w st
  = (Some {| gcs_access_token := text; last_access := time_store w |},
     [EvLock; EvPopen print_access_token; EvPclose; EvUnlock]).
Proof.
  unfold locked_section. intros -> -> H.
  destruct (Nat.leb_spec (String.length text) MAX_GCS_TOKEN_SIZE) as [_ | L];
    [| lia].
  unfold set_last_access, strncpy_token, memset_token.
  cbn [gcs_access_token last_access]. now rewrite take_all.
Qed.

Lemma locked_long_line (w : world) (st : statics) (text : string) :
  refresh_due w st = true ->
  gcloud w = Line text ->
  (MAX_GCS_TOKEN_SIZE < String.length text)%nat ->
  locked_section w st = (None, [EvLock; EvPopen print_access_token; EvPclose]).
Proof.
  unfold locked_section. intros -> -> H.
  destruct (Nat.leb_spec (String.length text) MAX_GCS_TOKEN_SIZE) as [L | _];
    [lia | reflexivity].
Qed.

(** The command is started once when a refresh is due, and not at all
    otherwise. *)
Lemma locked_popen_count (w : world) (st : statics) :
  popen_count (snd (locked_section w st))
  = if refresh_due w st then 1%nat else 0%nat.
Proof.
  unfold locked_section. destruct (refresh_due w st); [| reflexivity].
  destruct (gcloud w) as [| | text]; try reflexivity.
  now destruct (String.length text <=? MAX_GCS_TOKEN_SIZE)%nat.
Qed.

Lemma provider_popen_count (w : world) (st : statics) (path : string) :
  override_token w = None ->
  auth_delegation w = None ->
  credentials_path w = Some path ->
  popen_count (snd (get_gcs_access_token w st))
  = if refresh_due w st then 1%nat else 0%nat.
Proof.
  intros Ho Hd Hc. rewrite (provider_with_credentials w st path Ho Hd Hc).
  rewrite <- locked_popen_count.
  now destruct (locked_section w st) as [[st' |] tr].
Qed.

(** The provider never calls the opener. *)
Lemma provider_no_hopen (w : world) (st : statics) :
  hopen_count (snd (get_gcs_access_token w st)) = O.
Proof.
  unfold get_gcs_access_token.
  destruct (getenv "GCS_OAUTH_TOKEN" (env w)); [reflexivity|].
  destruct (getenv "HTS_AUTH_LOCATION" (env w)); [reflexivity|].
  destruct (getenv "GOOGLE_APPLICATION_CREDENTIALS" (env w)); [| reflexivity].
  unfold locked_section. destruct (refresh_due w st); [| reflexivity].
  destruct (gcloud w) as [| | text]; try reflexivity.
  now destruct (String.length text <=? MAX_GCS_TOKEN_SIZE)%nat.
Qed.

(** Whenever the section returns, the lock was taken first and released
    last. *)
Lemma locked_section_bracketed (w : world) (st st' : statics)
    (tr : list event) :
  locked_section w st = (Some st', tr) ->
  exists inner, tr = (EvLock :: inner ++ [EvUnlock])%list
                /\ ~ In EvLock inner /\ ~ In EvUnlock inner.
Proof.
  unfold locked_section. destruct (refresh_due w st).
  - destruct (gcloud w) as [| | text].
    + intros H. inversion H. exists [EvPopen print_access_token].
      split; [reflexivity|].
      split; intros [E | []]; discriminate E.
    + intros H. inversion H. exists [EvPopen print_access_token].
      split; [reflexivity|].
      split; intros [E | []]; discriminate E.
    + destruct (String.length text <=? MAX_GCS_TOKEN_SIZE)%nat;
        [| discriminate].
      intros H. inversion H.
      exists [EvPopen print_access_token; EvPclose].
      split; [reflexivity|].
      split; intros [E | [E | []]]; discriminate E.
  - intros H. inversion H. exists []. split; [reflexivity|].
    split; intros [].
Qed.


End ProviderFacts.

(** C5.  An override token is returned as it is, with the cache neither
    read nor written and no subprocess started, whatever else is
    configured; without one, the delegation variable makes the provider
    return no token, whatever the cache or the credentials path could
    give. *)
Theorem provider_precedence (w : world) (st : statics) :
  (forall token, override_token w = Some token ->
     get_gcs_access_token w st = (Returns (Some token) st, []))
  /\ (override_token w = None ->
      forall location, auth_delegation w = Some location ->
        get_gcs_access_token w st = (Returns None st, [])).
Proof.
  unfold override_token, auth_delegation, get_gcs_access_token. split.
  - now intros token ->.
  - now intros -> location ->.
Qed.

Lemma provider_precedence_witness :
  get_gcs_access_token
    (mkWorld (("GCS_OAUTH_TOKEN", "ya29.override") :: credentials_env)
       0 9000 9000 (Line "ya29.minted"))
    minted_at_1000
  = (Returns (Some "ya29.override") minted_at_1000, [])
  /\ get_gcs_access_token
       (mkWorld (("HTS_AUTH_LOCATION", "/run/token") :: credentials_env)
          0 9000 9000 (Line "ya29.minted"))
       minted_at_1000
     = (Returns None minted_at_1000, []).
Proof.
  split.
  - apply (proj1 (provider_precedence _ _)). reflexivity.
  - apply (proj2 (provider_precedence _ _)) with (location := "/run/token");
      reflexivity.
Defined.

(** C7 (as amended).  With none of the three signals, the provider starts
    no subprocess and leaves the statics alone; it returns no token when
    the cache is empty, and the cached token when an earlier call left
    one. *)
Theorem provider_without_signal (w : world) (st : statics) :
  override_token w = None ->
  auth_delegation w = None ->
  credentials_path w = None ->
  (gcs_access_token st = "" ->
     get_gcs_access_token w st = (Returns None st, []))
  /\ (gcs_access_token st <> "" ->
      (String.length (gcs_access_token st) < MAX_GCS_TOKEN_SIZE)%nat ->
      get_gcs_access_token w st
      = (Returns (Some (gcs_access_token st)) st, [])).
Proof.
  intros Ho Hd Hc. rewrite (provider_without_credentials w st Ho Hd Hc).
  split.
  - intros E. unfold return_cached. now rewrite E.
  - intros N L. rewrite return_cached_value by exact L.
    unfold cached_value. now destruct (String.eqb_spec (gcs_access_token st) "").
Qed.

Lemma provider_without_signal_witness :
  get_gcs_access_token (mkWorld [] 0 1001 1001 PopenFails) initial_statics
  = (Returns None initial_statics, [])
  /\ get_gcs_access_token (mkWorld [] 0 1001 1001 PopenFails) minted_at_1000
     = (Returns (Some "ya29.first") minted_at_1000, []).
Proof.
  split.
  - apply (proj1 (provider_without_signal
                    (mkWorld [] 0 1001 1001 PopenFails) initial_statics
                    eq_refl eq_refl eq_refl)).
    reflexivity.
  - apply (proj2 (provider_without_signal
                    (mkWorld [] 0 1001 1001 PopenFails) minted_at_1000
                    eq_refl eq_refl eq_refl)).
    + discriminate.
    + apply Nat.ltb_lt. vm_compute. reflexivity.
Defined.

(** C7 as stated fails: a first call with the credentials path set mints
    a token; a second call, with no signal left in the environment, still
    returns it. *)
Lemma cached_token_outlives_signals :
  let first := mkWorld credentials_env 0 1000 1000 (Line "ya29.first") in
  let second := mkWorld [] 0 1001 1001 PopenFails in
  fst (get_gcs_access_token first initial_statics)
  = Returns (Some "ya29.first") minted_at_1000
  /\ override_token second = None
  /\ auth_delegation second = None
  /\ credentials_path second = None
  /\ fst (get_gcs_access_token second minted_at_1000)
     = Returns (Some "ya29.first") minted_at_1000
  /\ fst (get_gcs_access_token second minted_at_1000)
     <> Returns None minted_at_1000.
Proof.
  cbv zeta. repeat split; try reflexivity.
  vm_compute. discriminate.
Qed.

(** C2 (as amended).  In a refresh, if the subprocess cannot be started
    the cached token and the fetch time are left untouched and the stale
    value is what the call returns; if it is started and gives no line,
    the cache has been cleared beforehand and the fetch time is set to the
    current time, so the call returns no token. *)
Theorem refresh_without_line (w : world) (st : statics) (path : string) :
  override_token w = None ->
  auth_delegation w = None ->
  credentials_path w = Some path ->
  refresh_due w st = true ->
  (gcloud w = PopenFails ->
     (String.length (gcs_access_token st) < MAX_GCS_TOKEN_SIZE)%nat ->
     get_gcs_access_token w st
     = (Returns (cached_value st) st,
        [EvLock; EvPopen print_access_token; EvUnlock]))
  /\ (gcloud w = NoLine ->
      get_gcs_access_token w st
      = (Returns None
           {| gcs_access_token := ""; last_access := time_store w |},
         [EvLock; EvPopen print_access_token; EvUnlock])).
Proof.
  intros Ho Hd Hc Hdue.
  rewrite (provider_with_credentials w st path Ho Hd Hc). split.
  - intros Hg L. rewrite (locked_popen_fails w st Hdue Hg).
    now rewrite return_cached_value.
  - intros Hg. now rewrite (locked_no_line w st Hdue Hg).
Qed.

Lemma refresh_without_line_witness :
  get_gcs_access_token (mkWorld credentials_env 0 5000 5001 PopenFails)
    minted_at_1000
  = (Returns (Some "ya29.first") minted_at_1000,
     [EvLock; EvPopen print_access_token; EvUnlock])
  /\ get_gcs_access_token (mkWorld credentials_env 0 5000 5001 NoLine)
       minted_at_1000
     = (Returns None {| gcs_access_token := ""; last_access := 5001 |},
        [EvLock; EvPopen print_access_token; EvUnlock]).
Proof.
  split.
  - apply (proj1 (refresh_without_line
                    (mkWorld credentials_env 0 5000 5001 PopenFails)
                    minted_at_1000 "/etc/gcs/key.json"
                    eq_refl eq_refl eq_refl eq_refl)).
    + reflexivity.
    + apply Nat.ltb_lt. vm_compute. reflexivity.
  - apply (proj2 (refresh_without_line
                    (mkWorld credentials_env 0 5000 5001 NoLine)
                    minted_at_1000 "/etc/gcs/key.json"
                    eq_refl eq_refl eq_refl eq_refl)).
    reflexivity.
Defined.

(** C2 as stated fails: the token minted at time 1000 is stale at time
    5000; the subprocess starts and prints nothing; the token is gone and
    the fetch time has moved. *)
Lemma silent_subprocess_clears_cache :
  let first := mkWorld credentials_env 0 1000 1000 (Line "ya29.first") in
  let second := mkWorld credentials_env 0 5000 5001 NoLine in
  fst (get_gcs_access_token first initial_statics)
  = Returns (Some "ya29.first") minted_at_1000
  /\ refresh_due second minted_at_1000 = true
  /\ exists st',
       fst (get_gcs_access_token second minted_at_1000) = Returns None st'
       /\ gcs_access_token st' <> gcs_access_token minted_at_1000
       /\ last_access st' <> last_access minted_at_1000.
Proof.
  cbv zeta. split; [reflexivity|]. split; [reflexivity|].
  exists {| gcs_access_token := ""; last_access := 5001 |}.
  repeat split; [discriminate | discriminate].
Qed.

(** C4 (as amended).  With the credentials path set and neither override
    nor delegation: a call made when the fetch time is set and the age is
    at most 3540 seconds starts no subprocess and returns the cached value
    (no token if the cache is empty); a call made when the fetch time is
    unset or the age exceeds 3540 seconds starts the subprocess exactly
    once, and when a line is read it is stored and returned with the
    current time as the fetch time. *)
Theorem refresh_by_fetch_time (w : world) (st : statics) (path : string) :
  override_token w = None ->
  auth_delegation w = None ->
  credentials_path w = Some path ->
  (last_access st <> 0%Z ->
   (age w st <= 3540)%Z ->
     popen_count (snd (get_gcs_access_token w st)) = 0%nat
     /\ ((String.length (gcs_access_token st) < MAX_GCS_TOKEN_SIZE)%nat ->
         fst (get_gcs_access_token w st) = Returns (cached_value st) st))
  /\ (last_access st = 0%Z \/ (age w st > 3540)%Z ->
        popen_count (snd (get_gcs_access_token w st)) = 1%nat
        /\ forall text,
             gcloud w = Line text ->
             (String.length text < MAX_GCS_TOKEN_SIZE)%nat ->
             fst (get_gcs_access_token w st)
             = Returns (if String.eqb text "" then None else Some text)
                 {| gcs_access_token := text; last_access := time_store w |}).
Proof.
  intros Ho Hd Hc. split.
  - intros H0 Hage.
    pose proof (refresh_due_false w st H0 Hage) as Hdue. split.
    + now rewrite (provider_popen_count w st path Ho Hd Hc), Hdue.
    + intros L. rewrite (provider_with_credentials w st path Ho Hd Hc).
      rewrite (locked_fresh w st Hdue). cbn [fst].
      now apply return_cached_value.
  - intros H.
    pose proof (refresh_due_true w st H) as Hdue. split.
    + now rewrite (provider_popen_count w st path Ho Hd Hc), Hdue.
    + intros text Hg L.
      rewrite (provider_with_credentials w st path Ho Hd Hc).
      rewrite (locked_line w st text Hdue Hg) by lia. cbn [fst].
      now rewrite return_cached_value.
Qed.

Lemma refresh_by_fetch_time_witness :
  (popen_count
     (snd (get_gcs_access_token
             (mkWorld credentials_env 0 4540 4541 (Line "ya29.second"))
             minted_at_1000)) = 0%nat
   /\ fst (get_gcs_access_token
             (mkWorld credentials_env 0 4540 4541 (Line "ya29.second"))
             minted_at_1000)
      = Returns (Some "ya29.first") minted_at_1000)
  /\ (popen_count
        (snd (get_gcs_access_token
                (mkWorld credentials_env 0 4541 4542 (Line "ya29.second"))
                minted_at_1000)) = 1%nat
      /\ fst (get_gcs_access_token
                (mkWorld credentials_env 0 4541 4542 (Line "ya29.second"))
                minted_at_1000)
         = Returns (Some "ya29.second")
             {| gcs_access_token := "ya29.second"; last_access := 4542 |}).
Proof.
  split.
  - destruct (proj1 (refresh_by_fetch_time
                       (mkWorld credentials_env 0 4540 4541 (Line "ya29.second"))
                       minted_at_1000 "/etc/gcs/key.json"
                       eq_refl eq_refl eq_refl)) as [Hcount Hret].
    + simpl. discriminate.
    + unfold age. simpl. lia.
    + split; [exact Hcount|]. apply Hret.
      apply Nat.ltb_lt. vm_compute. reflexivity.
  - destruct (proj2 (refresh_by_fetch_time
                       (mkWorld credentials_env 0 4541 4542 (Line "ya29.second"))
                       minted_at_1000 "/etc/gcs/key.json"
                       eq_refl eq_refl eq_refl)) as [Hcount Hret].
    + right. unfold age. simpl. lia.
    + split; [exact Hcount|]. apply (Hret "ya29.second" eq_refl).
      apply Nat.ltb_lt. vm_compute. reflexivity.
Defined.

(** C4 as stated fails: a first call starts the subprocess, which prints
    nothing; the cache is empty afterwards, and yet a second call one
    second later starts no subprocess. *)
Lemma empty_cache_not_refreshed :
  let first := mkWorld credentials_env 0 1000 1000 NoLine in
  let second := mkWorld credentials_env 0 1001 1001 (Line "ya29.second") in
  let emptied := {| gcs_access_token := ""; last_access := 1000 |} in
  fst (get_gcs_access_token first initial_statics) = Returns None emptied
  /\ gcs_access_token emptied = ""
  /\ popen_count (snd (get_gcs_access_token second emptied)) = 0%nat
  /\ popen_count (snd (get_gcs_access_token second emptied)) <> 1%nat
  /\ fst (get_gcs_access_token second emptied) = Returns None emptied.
Proof.
  cbv zeta. repeat split; try reflexivity.
  vm_compute. discriminate.
Qed.

(** C6.  A line of more than 2048 bytes fails the assertion: the call
    aborts, after the stream is closed and inside the lock, and returns
    nothing.  And whenever a call that read a line does return, the cache
    holds that line whole. *)
Theorem oversized_line_aborts
    (w : world) (st : statics) (path text : string) :
  override_token w = None ->
  auth_delegation w = None ->
  credentials_path w = Some path ->
  refresh_due w st = true ->
  gcloud w = Line text ->
  ((MAX_GCS_TOKEN_SIZE < String.length text)%nat ->
     get_gcs_access_token w st
     = (Aborts, [EvLock; EvPopen print_access_token; EvPclose]))
  /\ (forall r st',
        fst (get_gcs_access_token w st) = Returns r st' ->
        gcs_access_token st' = text).
Proof.
  intros Ho Hd Hc Hdue Hg.
  rewrite (provider_with_credentials w st path Ho Hd Hc). split.
  - intros L. now rewrite (locked_long_line w st text Hdue Hg L).
  - intros r st'.
    destruct (Nat.leb_spec (String.length text) MAX_GCS_TOKEN_SIZE) as [L | L].
    + rewrite (locked_line w st text Hdue Hg L). cbn [fst]. intros H.
      now rewrite (return_cached_keeps _ _ _ H).
    + rewrite (locked_long_line w st text Hdue Hg L). discriminate.
Qed.

Lemma oversized_line_aborts_witness :
  get_gcs_access_token
    (mkWorld credentials_env 0 5000 5001 (Line (filled 2049 "a")))
    minted_at_1000
  = (Aborts, [EvLock; EvPopen print_access_token; EvPclose]).
Proof.
  apply (proj1 (oversized_line_aborts
                  (mkWorld credentials_env 0 5000 5001 (Line (filled 2049 "a")))
                  minted_at_1000 "/etc/gcs/key.json" (filled 2049 "a")
                  eq_refl eq_refl eq_refl eq_refl eq_refl)).
  apply Nat.ltb_lt. vm_compute. reflexivity.
Defined.

(* ================================================================== *)
(** ** The translator *)

Section TranslatorFacts.

Lemma scheme_part_colon (scheme transport rest : string) :
  In (scheme, transport) scheme_transport ->
  scheme_part (scheme ++ ":" ++ rest) = Some (rest, transport ++ ":").
Proof.
  unfold scheme_transport. simpl.
  intros [E | [E | [E | []]]]; inversion E; subst; reflexivity.
Qed.

(** The loop of line 115 moves a run of slashes to [url]. *)
Lemma copy_slashes_run (n : nat) (rest url : string) :
  copy_slashes (filled n "/" ++ rest) url
  = copy_slashes rest (url ++ filled n "/").
Proof.
  revert url. induction n as [|n IH]; intros url; simpl.
  - now rewrite append_empty_r.
  - rewrite IH. unfold kputc. now rewrite append_assoc.
Qed.

Lemma rewritten_url_slashes
    (scheme transport bucket path mode : string) (n : nat) :
  In (scheme, transport) scheme_transport ->
  splits_at_delimiter bucket path ->
  rewritten_url (scheme ++ ":" ++ filled n "/" ++ bucket ++ path) mode
  = Some (kputs path
            (kputs ".googleapis.com"
               (put_storage_host mode
                  (transport ++ ":" ++ filled n "/" ++ bucket)))).
Proof.
  intros Hs H. unfold rewritten_url.
  rewrite (scheme_part_colon _ _ _ Hs), copy_slashes_run.
  rewrite (rest_of_url bucket path _ mode H).
  now rewrite !append_assoc.
Qed.

(** The host suffix is one of three. *)
Lemma storage_host_cases (mode url : string) :
  exists host,
    In host ["storage-download"; "storage-upload"; "storage"]
    /\ put_storage_host mode url = url ++ "." ++ host.
Proof.
  unfold put_storage_host.
  destruct (has_char mode "r");
    [| destruct (has_char mode "w")]; eexists; simpl; eauto.
Qed.

Lemma registered_scheme_transport (scheme : string) :
  In scheme registered_schemes ->
  exists transport, In (scheme, transport) scheme_transport.
Proof.
  unfold registered_schemes, scheme_transport. simpl.
  intros [<- | [<- | [<- | []]]]; eexists; eauto.
Qed.

(** A URL of a registered scheme always gets its target URL. *)
Lemma registered_scheme_rewritten (gsurl mode : string) :
  has_registered_scheme gsurl ->
  exists url, rewritten_url gsurl mode = Some url.
Proof.
  intros (scheme & rest & Hs & ->).
  destruct (registered_scheme_transport scheme Hs) as [transport Ht].
  unfold rewritten_url. rewrite (scheme_part_colon _ _ _ Ht).
  destruct (copy_slashes rest (transport ++ ":")) as [b u].
  eexists. reflexivity.
Qed.

(** Every text is a run of slashes and a rest that opens with none. *)
Lemma slashes_then_rest (text : string) :
  exists n rest,
    text = filled n "/" ++ rest /\ (forall p, rest <> String "/" p).
Proof.
  induction text as [|a text (n & rest & -> & Hrest)].
  - exists O, "". split; [reflexivity | discriminate].
  - destruct (Ascii.eqb_spec a "/") as [-> | Ha].
    + exists (S n), rest. split; [reflexivity | exact Hrest].
    + exists O, (String a (filled n "/" ++ rest)).
      split; [reflexivity|]. intros p H. injection H as H _. contradiction.
Qed.

(** Every text is a bucket and a path. *)
Lemma bucket_then_path (text : string) :
  exists bucket path,
    text = bucket ++ path
    /\ (forall c, In c (chars bucket) -> ~ delimiter c)
    /\ (path = "" \/ exists c p, path = String c p /\ delimiter c).
Proof.
  induction text as [|a text (bucket & path & -> & Hb & Hp)].
  - exists "", "". split; [reflexivity|]. split; [intros c [] | now left].
  - destruct (has_char "/?#" a) eqn:Ha.
    + exists "", (String a (bucket ++ path)).
      split; [reflexivity|]. split; [intros c []|].
      right. exists a, (bucket ++ path).
      split; [reflexivity | now apply delimiter_has_char].
    + exists (String a bucket), path.
      split; [reflexivity|]. split; [| exact Hp].
      intros c [<- | Hc]; [| now apply Hb].
      intros Hd. apply delimiter_has_char in Hd. congruence.
Qed.

(** A URL of a registered scheme reads as scheme, colon, slashes, bucket
    and path. *)
Lemma registered_scheme_splits (gsurl : string) :
  has_registered_scheme gsurl ->
  exists scheme transport n bucket path,
    In (scheme, transport) scheme_transport
    /\ splits_at_delimiter bucket path
    /\ gsurl = scheme ++ ":" ++ filled n "/" ++ bucket ++ path.
Proof.
  intros (scheme & text & Hs & ->).
  destruct (registered_scheme_transport scheme Hs) as [transport Ht].
  destruct (slashes_then_rest text) as (n & rest & -> & Hrest).
  destruct (bucket_then_path rest) as (bucket & path & -> & Hb & Hp).
  exists scheme, transport, n, bucket, path.
  split; [exact Ht|]. split; [| reflexivity].
  split; [exact Hb|].
  destruct Hp as [-> | (c & p & -> & Hc)]; [now left|].
  right. exists c, p. split; [reflexivity|]. split; [exact Hc|].
  intros -> ->. now apply (Hrest p).
Qed.

Lemma call_url_choose (url mode : string) (mode_has_colon : Z)
    (argsp : option va_list) (auth_hdr requester_pays_hdr : string) :
  call_url (choose_call url mode mode_has_colon argsp
              auth_hdr requester_pays_hdr) = url.
Proof.
  unfold choose_call.
  destruct (_ || _ || _ || _); [| reflexivity].
  now destruct (_ && _).
Qed.

Lemma hopen_count_app (tr1 tr2 : list event) :
  hopen_count (tr1 ++ tr2) = (hopen_count tr1 + hopen_count tr2)%nat.
Proof.
  induction tr1 as [|e tr1 IH]; simpl; [reflexivity|].
  destruct e; simpl; auto.
Qed.

(** The headers the call carries, case by case (lines 144 to 168). *)
Lemma headers_of_choose_call (url mode : string) (mode_has_colon : Z)
    (argsp : option va_list) (auth_hdr requester_pays_hdr : string) :
  headers_passed (choose_call url mode mode_has_colon argsp
                    auth_hdr requester_pays_hdr)
  = if (0 <? String.length auth_hdr)%nat
    then if (0 <? String.length requester_pays_hdr)%nat
         then [auth_hdr; requester_pays_hdr]
         else [auth_hdr]
    else [].
Proof.
  unfold headers_passed, choose_call.
  destruct (0 <? String.length auth_hdr)%nat;
    destruct (0 <? String.length requester_pays_hdr)%nat;
    destruct (is_null argsp); destruct (mode_has_colon =? 0)%Z;
    reflexivity.
Qed.

(** The two-argument call is made exactly when nothing asks for options. *)
Lemma fast_path_choose_call (url mode : string) (mode_has_colon : Z)
    (argsp : option va_list) (auth_hdr requester_pays_hdr : string) :
  choose_call url mode mode_has_colon argsp auth_hdr requester_pays_hdr
  = mkCall url mode []
  <-> argsp = None /\ mode_has_colon = 0%Z
      /\ auth_hdr = "" /\ requester_pays_hdr = "".
Proof.
  unfold choose_call. split.
  - destruct argsp as [a|]; destruct (Z.eqb_spec mode_has_colon 0);
      destruct auth_hdr; destruct requester_pays_hdr; simpl;
      intros H; try discriminate H; auto.
  - intros (-> & -> & -> & ->). reflexivity.
Qed.

End TranslatorFacts.


(** C10 (as amended).  For a URL of a registered scheme and any mode the
    translator checks neither bucket nor path and always builds a target
    URL: the input reads as scheme, colon, slashes, bucket and path;
    every slash behind the colon goes to the transport prefix, the bucket
    is what follows up to the first delimiter (it may be empty, and the
    host then starts with [.storage]), and the path is appended as it is.
    Whenever the token provider returns, the translator calls the opener
    exactly once, on that URL, and returns the opener's result: it returns
    a failure exactly when the opener fails. *)
Theorem translation_delegates
    (hFILE : Type) (hopen : hopen_call -> option hFILE)
    (w : world) (st : statics) (gsurl mode : string)
    (mode_has_colon : Z) (argsp : option va_list) :
  has_registered_scheme gsurl ->
  exists url,
    rewritten_url gsurl mode = Some url
    /\ (exists scheme transport n bucket path,
          In (scheme, transport) scheme_transport
          /\ splits_at_delimiter bucket path
          /\ gsurl = scheme ++ ":" ++ filled n "/" ++ bucket ++ path)
    /\ (forall scheme transport n bucket path,
          In (scheme, transport) scheme_transport ->
          splits_at_delimiter bucket path ->
          gsurl = scheme ++ ":" ++ filled n "/" ++ bucket ++ path ->
          exists host,
            In host ["storage-download"; "storage-upload"; "storage"]
            /\ url = transport ++ ":" ++ filled n "/" ++ bucket
                     ++ "." ++ host ++ ".googleapis.com" ++ path)
    /\ (forall access_token st' tr,
          get_gcs_access_token w st = (Returns access_token st', tr) ->
          let result := gcs_rewrite hopen w st gsurl mode mode_has_colon argsp in
          exists call,
            call_url call = url
            /\ fst result = Returns (hopen call) st'
            /\ In (EvHopen call) (snd result)
            /\ hopen_count (snd result) = 1%nat
            /\ (hopen call = None <-> fst result = Returns None st')).
Proof.
  intros Hreg.
  destruct (registered_scheme_rewritten gsurl mode Hreg) as [url Hurl].
  exists url. split; [exact Hurl|].
  split; [exact (registered_scheme_splits gsurl Hreg)|]. split.
  - intros scheme transport n bucket path Hs Hsplit ->.
    rewrite (rewritten_url_slashes _ _ _ _ mode n Hs Hsplit) in Hurl.
    destruct (storage_host_cases mode
                (transport ++ ":" ++ filled n "/" ++ bucket))
      as (host & Hin & Hhost).
    exists host. split; [exact Hin|].
    rewrite Hhost in Hurl. injection Hurl as <-. unfold kputs.
    rewrite !append_assoc. simpl. now rewrite !append_assoc.
  - intros access_token st' tr Htoken result. subst result.
    pose proof (provider_no_hopen w st) as Hquiet.
    unfold gcs_rewrite. rewrite Hurl, Htoken in *. cbn [snd] in Hquiet.
    cbv zeta. cbn [fst snd].
    set (call := choose_call url mode mode_has_colon argsp _ _).
    exists call. split; [apply call_url_choose|].
    split; [reflexivity|]. split.
    + apply in_or_app. right. apply in_or_app. right. now left.
    + split.
      * rewrite !hopen_count_app, Hquiet.
        now destruct (hts_verbose w >=? 8)%Z.
      * split; [now intros -> | intros H; now inversion H].
Qed.

Lemma translation_delegates_witness :
  exists url,
    rewritten_url "gs+https://my-bucket/dir/obj.bam" "r" = Some url
    /\ exists call,
         call_url call = url
         /\ fst (gcs_rewrite sample_hopen
                   (mkWorld [] 0 1000 1000 PopenFails) initial_statics
                   "gs+https://my-bucket/dir/obj.bam" "r" 0 None)
            = Returns (sample_hopen call) initial_statics.
Proof.
  destruct (translation_delegates string sample_hopen
              (mkWorld [] 0 1000 1000 PopenFails) initial_statics
              "gs+https://my-bucket/dir/obj.bam" "r" 0 None)
    as (url & Hurl & _ & _ & Hcall).
  - exists "gs+https", "//my-bucket/dir/obj.bam".
    split; [simpl; right; right; left; reflexivity | reflexivity].
  - exists url. split; [exact Hurl|].
    destruct (Hcall None initial_statics [] eq_refl)
      as (call & Hc & Hret & _).
    exists call. split; [exact Hc | exact Hret].
Defined.

(** C10 as stated fails twice.  In [gs:///obj] the third slash is copied
    like the other two and [obj] is the bucket: the host does not start
    with [.storage].  And when the provider reads a line of 2049 bytes the
    translator aborts: the opener is never called. *)
Lemma translation_can_fail :
  (has_registered_scheme "gs:///obj"
   /\ rewritten_url "gs:///obj" "r"
      = Some "https:///obj.storage-download.googleapis.com"
   /\ String.prefix "https://.storage"
        "https:///obj.storage-download.googleapis.com" = false)
  /\ (has_registered_scheme "gs://b/o"
      /\ let result :=
           gcs_open sample_hopen
             (mkWorld credentials_env 0 1000 1000 (Line (filled 2049 "a")))
             initial_statics "gs://b/o" "r" in
         fst result = Aborts /\ hopen_count (snd result) = 0%nat).
Proof.
  split; split.
  - exists "gs", "///obj". split; [simpl; left; reflexivity | reflexivity].
  - split; reflexivity.
  - exists "gs", "//b/o". split; [simpl; left; reflexivity | reflexivity].
  - cbv zeta. split; vm_compute; reflexivity.
Qed.

(** C1, at the failing input.  With only the billing project set, the
    project header is built and the options path is taken, and the call
    carries no header at all: [httphdr] is followed by [NULL]. *)
Theorem project_header_dropped
    (hFILE : Type) (hopen : hopen_call -> option hFILE) :
  let w :=
    mkWorld [("GCS_REQUESTER_PAYS_PROJECT", "proj-123")]
      0 1000 1000 PopenFails in
  let call :=
    mkCall "https://my-bucket.storage-download.googleapis.com/dir/obj.bam"
      "r:"
      [ArgStr "va_list"; ArgVaList None; ArgStr "httphdr"; ArgNull; ArgNull] in
  get_gcs_access_token w initial_statics = (Returns None initial_statics, [])
  /\ build_hdr "X-Goog-User-Project: "
       (getenv "GCS_REQUESTER_PAYS_PROJECT" (env w))
     = "X-Goog-User-Project: proj-123"
  /\ gcs_open hopen w initial_statics "gs://my-bucket/dir/obj.bam" "r"
     = (Returns (hopen call) initial_statics, [EvHopen call])
  /\ headers_passed call = [].
Proof.
  cbv zeta. repeat split.
Qed.

(* ================================================================== *)
(** ** More on the token provider *)

Section ProviderSteps.

(** Line 91, read backwards. *)
Lemma return_cached_inv (x : statics) (r : option string) (st' : statics) :
  return_cached x = Returns r st' ->
  st' = x /\ r = cached_value x
  /\ (String.length (gcs_access_token x) < MAX_GCS_TOKEN_SIZE)%nat.
Proof.
  unfold return_cached, cached_value.
  destruct (Nat.leb_spec MAX_GCS_TOKEN_SIZE (String.length (gcs_access_token x)))
    as [_ | L]; [discriminate|].
  destruct (gcs_access_token x) as [|a t]; simpl; intros H;
    injection H as <- <-; auto.
Qed.

(** What one call can leave in the statics. *)
Lemma locked_section_cases (w : world) (st st' : statics) (tr : list event) :
  locked_section w st = (Some st', tr) ->
  st' = st
  \/ st' = {| gcs_access_token := ""; last_access := time_store w |}
  \/ exists text,
       gcloud w = Line text
       /\ st' = {| gcs_access_token := text; last_access := time_store w |}.
Proof.
  unfold locked_section. destruct (refresh_due w st).
  - destruct (gcloud w) as [| | text].
    + intros H. injection H as <- _. now left.
    + intros H. injection H as <- _. right. now left.
    + destruct (Nat.leb_spec (String.length text) MAX_GCS_TOKEN_SIZE)
        as [L | _]; [| discriminate].
      intros H. injection H as <- _. right. right. exists text.
      split; [reflexivity|].
      unfold set_last_access, strncpy_token, memset_token.
      cbn [gcs_access_token last_access]. now rewrite take_all.
  - intros H. injection H as <- _. now left.
Qed.

Lemma provider_step_cases (w : world) (st st' : statics)
    (r : option string) :
  fst (get_gcs_access_token w st) = Returns r st' ->
  st' = st
  \/ st' = {| gcs_access_token := ""; last_access := time_store w |}
  \/ exists text,
       gcloud w = Line text
       /\ st' = {| gcs_access_token := text; last_access := time_store w |}.
Proof.
  unfold get_gcs_access_token.
  destruct (getenv "GCS_OAUTH_TOKEN" (env w));
    [intros H; injection H as _ <-; now left|].
  destruct (getenv "HTS_AUTH_LOCATION" (env w));
    [intros H; injection H as _ <-; now left|].
  destruct (getenv "GOOGLE_APPLICATION_CREDENTIALS" (env w)).
  - destruct (locked_section w st) as [[x |] tr] eqn:E; [| discriminate].
    cbn [fst]. intros H. apply return_cached_inv in H as (-> & _ & _).
    exact (locked_section_cases w st x tr E).
  - cbn [fst]. intros H. apply return_cached_inv in H as (-> & _ & _).
    now left.
Qed.

End ProviderSteps.



(** X2.  The provider aborts in one situation only: no override, no
    delegation, the credentials path set, a refresh due, and a line of
    more than 2048 bytes read from the subprocess. *)
Theorem provider_aborts_iff (w : world) (st : statics) :
  fst (get_gcs_access_token w st) = Aborts
  <-> override_token w = None
      /\ auth_delegation w = None
      /\ credentials_path w <> None
      /\ refresh_due w st = true
      /\ exists text,
           gcloud w = Line text
           /\ (MAX_GCS_TOKEN_SIZE < String.length text)%nat.
Proof.
  unfold override_token, auth_delegation, credentials_path,
    get_gcs_access_token.
  assert (Hrc : forall x, return_cached x <> Aborts).
  { intros x. unfold return_cached.
    destruct (_ <=? _)%nat; [discriminate|].
    destruct (_ <? _)%nat; discriminate. }
  split.
  - destruct (getenv "GCS_OAUTH_TOKEN" (env w)); [discriminate|].
    destruct (getenv "HTS_AUTH_LOCATION" (env w)); [discriminate|].
    destruct (getenv "GOOGLE_APPLICATION_CREDENTIALS" (env w));
      [| intros H; now apply Hrc in H].
    unfold locked_section. destruct (refresh_due w st);
      [| intros H; now apply Hrc in H].
    destruct (gcloud w) as [| | text]; try (intros H; now apply Hrc in H).
    destruct (Nat.leb_spec (String.length text) MAX_GCS_TOKEN_SIZE)
      as [L | L]; [intros H; now apply Hrc in H|].
    intros _. repeat split; try discriminate. now exists text.
  - intros (-> & -> & Hc & Hdue & text & Hg & L).
    destruct (getenv "GOOGLE_APPLICATION_CREDENTIALS" (env w));
      [| contradiction].
    now rewrite (locked_long_line w st text Hdue Hg L).
Qed.

Lemma provider_aborts_iff_witness :
  fst (get_gcs_access_token
         (mkWorld credentials_env 0 5000 5001 (Line (filled 2049 "a")))
         minted_at_1000)
  = Aborts.
Proof.
  apply (proj2 (provider_aborts_iff
                  (mkWorld credentials_env 0 5000 5001 (Line (filled 2049 "a")))
                  minted_at_1000)).
  repeat split; try discriminate.
  exists (filled 2049 "a"). split; [reflexivity|].
  apply Nat.ltb_lt. vm_compute. reflexivity.
Defined.

(** X3.  A line of exactly 2048 bytes passes the assertion; [strncpy] then
    fills the array to its last byte and leaves no terminator, so that the
    [strlen] of line 91 runs past the array: the call has no defined
    result, although stream and lock were released in order. *)
Theorem full_line_overruns
    (w : world) (st : statics) (path text : string) :
  override_token w = None ->
  auth_delegation w = None ->
  credentials_path w = Some path ->
  refresh_due w st = true ->
  gcloud w = Line text ->
  String.length text = MAX_GCS_TOKEN_SIZE ->
  locked_section w st
  = (Some {| gcs_access_token := text; last_access := time_store w |},
     [EvLock; EvPopen print_access_token; EvPclose; EvUnlock])
  /\ get_gcs_access_token w st
     = (Undefined, [EvLock; EvPopen print_access_token; EvPclose; EvUnlock]).
Proof.
  intros Ho Hd Hc Hdue Hg L.
  assert (E := locked_line w st text Hdue Hg (Nat.eq_le_incl _ _ L)).
  split; [exact E|].
  rewrite (provider_with_credentials w st path Ho Hd Hc), E.
  unfold return_cached. cbn [gcs_access_token]. rewrite L.
  now rewrite Nat.leb_refl.
Qed.

Lemma full_line_overruns_witness :
  get_gcs_access_token
    (mkWorld credentials_env 0 5000 5001 (Line (filled 2048 "a")))
    minted_at_1000
  = (Undefined, [EvLock; EvPopen print_access_token; EvPclose; EvUnlock]).
Proof.
  apply (proj2 (full_line_overruns
                  (mkWorld credentials_env 0 5000 5001 (Line (filled 2048 "a")))
                  minted_at_1000 "/etc/gcs/key.json" (filled 2048 "a")
                  eq_refl eq_refl eq_refl eq_refl eq_refl
                  ltac:(vm_compute; reflexivity))).
Defined.



(** X5.  The cache only ever holds a line the subprocess printed: after
    any number of calls from a fresh process it is empty or is the line
    one of these calls read.  A token given by the override variable is
    never stored. *)
Theorem run_cache_provenance (ws : list world) (st : statics) :
  run ws initial_statics = Some st ->
  gcs_access_token st = ""
  \/ exists w, In w ws /\ gcloud w = Line (gcs_access_token st).
Proof.
  assert (G : forall st0,
             run ws st0 = Some st ->
             gcs_access_token st = gcs_access_token st0
             \/ gcs_access_token st = ""
             \/ exists w, In w ws /\ gcloud w = Line (gcs_access_token st)).
  { induction ws as [|w ws IH]; intros st0; simpl.
    - intros H. injection H as <-. now left.
    - destruct (fst (get_gcs_access_token w st0)) as [r st1 | |] eqn:E;
        try discriminate.
      intros Hrun.
      destruct (IH st1 Hrun) as [Hsame | [Hempty | (w' & Hin & Hw')]].
      + destruct (provider_step_cases w st0 st1 r E)
          as [-> | [-> | (text & Hg & ->)]].
        * now left.
        * right. left. now rewrite Hsame.
        * right. right. exists w. split; [now left|]. now rewrite Hsame.
      + right. now left.
      + right. right. exists w'. split; [now right | exact Hw']. }
  intros Hrun. destruct (G initial_statics Hrun) as [H | [H | H]]; auto.
Qed.

Lemma run_cache_provenance_witness :
  "ya29.first" = ""
  \/ exists w,
       In w [mkWorld credentials_env 0 1000 1000 (Line "ya29.first");
             mkWorld (("GCS_OAUTH_TOKEN", "ya29.override") :: credentials_env)
               0 9000 9000 (Line "ya29.second")]
       /\ gcloud w = Line "ya29.first".
Proof.
  exact (run_cache_provenance
           [mkWorld credentials_env 0 1000 1000 (Line "ya29.first");
            mkWorld (("GCS_OAUTH_TOKEN", "ya29.override") :: credentials_env)
              0 9000 9000 (Line "ya29.second")]
           minted_at_1000 eq_refl).
Defined.

(** X6.  A token that was just minted is reused: after a refresh that
    read a non-empty line, a call made up to 3540 seconds after the stored
    fetch time returns that line from the cache and starts no subprocess,
    whatever the subprocess would print now. *)
Theorem minted_token_is_reused
    (w1 w2 : world) (st : statics) (path1 path2 text : string) :
  override_token w1 = None -> auth_delegation w1 = None ->
  credentials_path w1 = Some path1 ->
  override_token w2 = None -> auth_delegation w2 = None ->
  credentials_path w2 = Some path2 ->
  refresh_due w1 st = true ->
  gcloud w1 = Line text ->
  text <> "" ->
  (String.length text < MAX_GCS_TOKEN_SIZE)%nat ->
  time_store w1 <> 0%Z ->
  (time_check w2 - time_store w1 <= 3540)%Z ->
  let st1 := {| gcs_access_token := text; last_access := time_store w1 |} in
  fst (get_gcs_access_token w1 st) = Returns (Some text) st1
  /\ get_gcs_access_token w2 st1
     = (Returns (Some text) st1, [EvLock; EvUnlock]).
Proof.
  intros Ho1 Hd1 Hc1 Ho2 Hd2 Hc2 Hdue Hg Hne L Hclock Hage st1.
  assert (Hcv : cached_value st1 = Some text).
  { unfold cached_value, st1. cbn [gcs_access_token].
    now destruct (String.eqb_spec text ""). }
  split.
  - rewrite (provider_with_credentials w1 st path1 Ho1 Hd1 Hc1).
    rewrite (locked_line w1 st text Hdue Hg) by lia. cbn [fst].
    fold st1. now rewrite return_cached_value, Hcv.
  - rewrite (provider_with_credentials w2 st1 path2 Ho2 Hd2 Hc2).
    rewrite locked_fresh by (apply refresh_due_false; assumption).
    now rewrite return_cached_value, Hcv.
Qed.

Lemma minted_token_is_reused_witness :
  get_gcs_access_token
    (mkWorld credentials_env 0 4540 4540 (Line "ya29.second")) minted_at_1000
  = (Returns (Some "ya29.first") minted_at_1000, [EvLock; EvUnlock]).
Proof.
  apply (proj2 (minted_token_is_reused
                  (mkWorld credentials_env 0 1000 1000 (Line "ya29.first"))
                  (mkWorld credentials_env 0 4540 4540 (Line "ya29.second"))
                  initial_statics "/etc/gcs/key.json" "/etc/gcs/key.json"
                  "ya29.first"
                  eq_refl eq_refl eq_refl eq_refl eq_refl eq_refl
                  eq_refl eq_refl
                  ltac:(discriminate)
                  ltac:(apply Nat.ltb_lt; vm_compute; reflexivity)
                  ltac:(discriminate)
                  ltac:(simpl; lia))).
Defined.

(** X7.  A subprocess that could not be started is tried again by the
    next call: the failed refresh leaves the statics as they were, so a
    later call (the clock not running backwards) starts it once more. *)
Theorem failed_popen_is_retried
    (w1 w2 : world) (st st1 : statics) (path1 path2 : string)
    (r : option string) :
  override_token w1 = None -> auth_delegation w1 = None ->
  credentials_path w1 = Some path1 ->
  override_token w2 = None -> auth_delegation w2 = None ->
  credentials_path w2 = Some path2 ->
  refresh_due w1 st = true ->
  gcloud w1 = PopenFails ->
  (time_check w1 <= time_check w2)%Z ->
  fst (get_gcs_access_token w1 st) = Returns r st1 ->
  st1 = st /\ popen_count (snd (get_gcs_access_token w2 st1)) = 1%nat.
Proof.
  intros Ho1 Hd1 Hc1 Ho2 Hd2 Hc2 Hdue Hg Hclock.
  rewrite (provider_with_credentials w1 st path1 Ho1 Hd1 Hc1).
  rewrite (locked_popen_fails w1 st Hdue Hg). cbn [fst]. intros H.
  apply return_cached_inv in H as (-> & _ & _). split; [reflexivity|].
  rewrite (provider_popen_count w2 st path2 Ho2 Hd2 Hc2).
  assert (Hdue2 : refresh_due w2 st = true).
  { revert Hdue. unfold refresh_due, MAX_SERVICE_TOKEN_DURATION.
    destruct (Z.eqb_spec (last_access st) 0) as [_ | _]; [reflexivity|].
    simpl. rewrite !Z.gtb_ltb. intros H. apply Z.ltb_lt in H.
    apply Z.ltb_lt. lia. }
  now rewrite Hdue2.
Qed.

Lemma failed_popen_is_retried_witness :
  popen_count
    (snd (get_gcs_access_token
            (mkWorld credentials_env 0 5002 5003 (Line "ya29.second"))
            minted_at_1000)) = 1%nat.
Proof.
  apply (proj2 (failed_popen_is_retried
                  (mkWorld credentials_env 0 5000 5001 PopenFails)
                  (mkWorld credentials_env 0 5002 5003 (Line "ya29.second"))
                  minted_at_1000 minted_at_1000
                  "/etc/gcs/key.json" "/etc/gcs/key.json" (Some "ya29.first")
                  eq_refl eq_refl eq_refl eq_refl eq_refl eq_refl
                  eq_refl eq_refl ltac:(simpl; lia) eq_refl)).
Defined.

(** X8.  A subprocess that started and printed nothing is not tried again
    for 3540 seconds: the call leaves an empty cache with a fresh fetch
    time, and every call within that time returns no token and starts no
    subprocess, whatever the subprocess would print now. *)
Theorem silent_subprocess_is_not_retried
    (w1 w2 : world) (st : statics) (path1 path2 : string) :
  override_token w1 = None -> auth_delegation w1 = None ->
  credentials_path w1 = Some path1 ->
  override_token w2 = None -> auth_delegation w2 = None ->
  credentials_path w2 = Some path2 ->
  refresh_due w1 st = true ->
  gcloud w1 = NoLine ->
  time_store w1 <> 0%Z ->
  (time_check w2 - time_store w1 <= 3540)%Z ->
  let st1 := {| gcs_access_token := ""; last_access := time_store w1 |} in
  fst (get_gcs_access_token w1 st) = Returns None st1
  /\ get_gcs_access_token w2 st1 = (Returns None st1, [EvLock; EvUnlock]).
Proof.
  intros Ho1 Hd1 Hc1 Ho2 Hd2 Hc2 Hdue Hg Hclock Hage st1. split.
  - rewrite (provider_with_credentials w1 st path1 Ho1 Hd1 Hc1).
    now rewrite (locked_no_line w1 st Hdue Hg).
  - rewrite (provider_with_credentials w2 st1 path2 Ho2 Hd2 Hc2).
    now rewrite locked_fresh by (apply refresh_due_false; assumption).
Qed.

Lemma silent_subprocess_is_not_retried_witness :
  get_gcs_access_token
    (mkWorld credentials_env 0 8541 8541 (Line "ya29.second"))
    {| gcs_access_token := ""; last_access := 5001 |}
  = (Returns None {| gcs_access_token := ""; last_access := 5001 |},
     [EvLock; EvUnlock]).
Proof.
  apply (proj2 (silent_subprocess_is_not_retried
                  (mkWorld credentials_env 0 5000 5001 NoLine)
                  (mkWorld credentials_env 0 8541 8541 (Line "ya29.second"))
                  minted_at_1000 "/etc/gcs/key.json" "/etc/gcs/key.json"
                  eq_refl eq_refl eq_refl eq_refl eq_refl eq_refl
                  eq_refl eq_refl ltac:(discriminate) ltac:(simpl; lia))).
Defined.

Section ProviderTraces.

(** The five traces a call can leave, and the outcome each comes with. *)
Lemma provider_trace_shapes (w : world) (st : statics) :
  let out := fst (get_gcs_access_token w st) in
  let tr := snd (get_gcs_access_token w st) in
  (out <> Aborts /\ tr = [])
  \/ (out <> Aborts /\ tr = [EvLock; EvUnlock])
  \/ (out <> Aborts /\ gcloud w <> NoLine
      /\ (forall text, gcloud w <> Line text)
      /\ tr = [EvLock; EvPopen print_access_token; EvUnlock])
  \/ (out <> Aborts /\ gcloud w = NoLine
      /\ tr = [EvLock; EvPopen print_access_token; EvUnlock])
  \/ (out <> Aborts /\ (exists text, gcloud w = Line text)
      /\ tr = [EvLock; EvPopen print_access_token; EvPclose; EvUnlock])
  \/ (out = Aborts /\ (exists text, gcloud w = Line text)
      /\ tr = [EvLock; EvPopen print_access_token; EvPclose]).
Proof.
  assert (Hrc : forall x, return_cached x <> Aborts).
  { intros x. unfold return_cached.
    destruct (_ <=? _)%nat; [discriminate|].
    destruct (_ <? _)%nat; discriminate. }
  cbv zeta. unfold get_gcs_access_token.
  destruct (getenv "GCS_OAUTH_TOKEN" (env w));
    [left; split; [discriminate | reflexivity]|].
  destruct (getenv "HTS_AUTH_LOCATION" (env w));
    [left; split; [discriminate | reflexivity]|].
  destruct (getenv "GOOGLE_APPLICATION_CREDENTIALS" (env w));
    [| left; split; [apply Hrc | reflexivity]].
  unfold locked_section. destruct (refresh_due w st);
    [| right; left; split; [apply Hrc | reflexivity]].
  destruct (gcloud w) as [| | text].
  - right. right. left. cbn [fst snd].
    split; [apply Hrc|]. split; [discriminate|].
    split; [intros text; discriminate | reflexivity].
  - right. right. right. left. cbn [fst snd].
    split; [apply Hrc|]. split; reflexivity.
  - destruct (String.length text <=? MAX_GCS_TOKEN_SIZE)%nat.
    + right. right. right. right. left. cbn [fst snd].
      split; [apply Hrc|]. split; [now exists text | reflexivity].
    + right. right. right. right. right. cbn [fst snd].
      split; [reflexivity|]. split; [now exists text | reflexivity].
Qed.

End ProviderTraces.

(** X9.  The subprocess is started only with the lock held, right after
    it is taken.  A call that does not abort took the lock never or once
    and released it last; a call that aborts dies holding it. *)
Theorem popen_under_lock (w : world) (st : statics) :
  let out := fst (get_gcs_access_token w st) in
  let tr := snd (get_gcs_access_token w st) in
  (forall pre command post,
     tr = (pre ++ EvPopen command :: post)%list -> pre = [EvLock])
  /\ (out <> Aborts ->
      tr = []
      \/ exists inner,
           tr = (EvLock :: inner ++ [EvUnlock])%list
           /\ ~ In EvLock inner /\ ~ In EvUnlock inner)
  /\ (out = Aborts -> In EvLock tr /\ ~ In EvUnlock tr).
Proof.
  cbv zeta.
  destruct (provider_trace_shapes w st)
    as [[Ho ->] | [[Ho ->] | [(Ho & _ & _ & ->) | [(Ho & _ & ->)
        | [(Ho & _ & ->) | (Ho & _ & ->)]]]]].
  - split; [| split].
    + intros [|e pre] c post H; discriminate H.
    + now left.
    + contradiction.
  - split; [| split].
    + intros [|e [|e' [|e'' pre]]] c post H; discriminate H.
    + intros _. right. exists []. split; [reflexivity|]. split; intros [].
    + contradiction.
  - split; [| split].
    + intros [|e [|e' [|e'' [|e3 pre]]]] c post H; try discriminate H.
      now injection H as ->.
    + intros _. right. exists [EvPopen print_access_token].
      split; [reflexivity|]. split; intros [E | []]; discriminate E.
    + contradiction.
  - split; [| split].
    + intros [|e [|e' [|e'' [|e3 pre]]]] c post H; try discriminate H.
      now injection H as ->.
    + intros _. right. exists [EvPopen print_access_token].
      split; [reflexivity|]. split; intros [E | []]; discriminate E.
    + contradiction.
  - split; [| split].
    + intros [|e [|e' [|e'' [|e3 [|e4 pre]]]]] c post H; try discriminate H.
      now injection H as ->.
    + intros _. right. exists [EvPopen print_access_token; EvPclose].
      split; [reflexivity|]. split; intros [E | [E | []]]; discriminate E.
    + contradiction.
  - split; [| split].
    + intros [|e [|e' [|e'' [|e3 pre]]]] c post H; try discriminate H.
      now injection H as ->.
    + contradiction.
    + intros _. split; [now left|].
      intros [E | [E | [E | []]]]; discriminate E.
Qed.

Lemma popen_under_lock_witness :
  let tr :=
    snd (get_gcs_access_token
           (mkWorld credentials_env 0 5000 5001 (Line (filled 2049 "a")))
           minted_at_1000) in
  In EvLock tr /\ ~ In EvUnlock tr.
Proof.
  apply (proj2 (proj2 (popen_under_lock
                         (mkWorld credentials_env 0 5000 5001
                            (Line (filled 2049 "a")))
                         minted_at_1000))).
  vm_compute. reflexivity.
Defined.

(** X10.  The stream of the subprocess is closed exactly when a line was
    read from it: when the subprocess starts and prints nothing, the call
    returns without [pclose]. *)
Theorem stream_closed_iff_line (w : world) (st : statics) :
  let tr := snd (get_gcs_access_token w st) in
  (In EvPclose tr
   <-> popen_count tr = 1%nat /\ exists text, gcloud w = Line text)
  /\ (popen_count tr = 1%nat -> gcloud w = NoLine -> ~ In EvPclose tr).
Proof.
  cbv zeta.
  destruct (provider_trace_shapes w st)
    as [[Ho ->] | [[Ho ->] | [(Ho & Hn & Hl & ->) | [(Ho & Hg & ->)
        | [(Ho & (t & Hg) & ->) | (Ho & (t & Hg) & ->)]]]]]; simpl.
  - split; [split; [intros [] | intros [H _]; discriminate H]|].
    intros H. discriminate H.
  - split; [split; [intros [E | [E | []]]; discriminate E
                   | intros [H _]; discriminate H]|].
    intros H. discriminate H.
  - split.
    + split; [intros [E | [E | [E | []]]]; discriminate E|].
      intros [_ [t Ht]]. now elim (Hl t).
    + intros _ Hg. contradiction.
  - split.
    + split; [intros [E | [E | [E | []]]]; discriminate E|].
      intros [_ [t Ht]]. rewrite Hg in Ht. discriminate Ht.
    + intros _ _ [E | [E | [E | []]]]; discriminate E.
  - split.
    + split; [intros _; split; [reflexivity | now exists t]|].
      intros _. right. right. now left.
    + intros _ Hn. rewrite Hg in Hn. discriminate Hn.
  - split.
    + split; [intros _; split; [reflexivity | now exists t]|].
      intros _. right. right. now left.
    + intros _ Hn. rewrite Hg in Hn. discriminate Hn.
Qed.

Lemma stream_closed_iff_line_witness :
  ~ In EvPclose
      (snd (get_gcs_access_token
              (mkWorld credentials_env 0 5000 5001 NoLine) minted_at_1000)).
Proof.
  apply (proj2 (stream_closed_iff_line
                  (mkWorld credentials_env 0 5000 5001 NoLine)
                  minted_at_1000)); reflexivity.
Defined.

(* ================================================================== *)
(** ** More on the translator *)

Section TranslatorCalls.

Lemma opener_calls_app (tr1 tr2 : list event) :
  opener_calls (tr1 ++ tr2) = (opener_calls tr1 ++ opener_calls tr2)%list.
Proof.
  induction tr1 as [|e tr1 IH]; simpl; [reflexivity|].
  destruct e; simpl; now rewrite ?IH.
Qed.

Lemma provider_no_opener_calls (w : world) (st : statics) :
  opener_calls (snd (get_gcs_access_token w st)) = [].
Proof.
  destruct (provider_trace_shapes w st)
    as [[_ ->] | [[_ ->] | [(_ & _ & _ & ->) | [(_ & _ & ->)
        | [(_ & _ & ->) | (_ & _ & ->)]]]]]; reflexivity.
Qed.

(** A built header is never empty. *)
Lemma build_hdr_some (name value : string) :
  build_hdr name (Some value) = name ++ value.
Proof. reflexivity. Qed.

Lemma nonempty_append (name value : string) :
  name <> "" -> (0 <? String.length (name ++ value))%nat = true.
Proof. destruct name; [contradiction | reflexivity]. Qed.

(** The translator once the URL is built and the provider has returned. *)
Lemma gcs_rewrite_returns (hFILE : Type) (hopen : hopen_call -> option hFILE)
    (w : world) (st st' : statics) (gsurl mode url : string)
    (mode_has_colon : Z) (argsp : option va_list)
    (access_token : option string) (tr : list event) :
  rewritten_url gsurl mode = Some url ->
  get_gcs_access_token w st = (Returns access_token st', tr) ->
  let call :=
    choose_call url mode mode_has_colon argsp
      (build_hdr "Authorization: Bearer " access_token)
      (build_hdr "X-Goog-User-Project: "
         (getenv "GCS_REQUESTER_PAYS_PROJECT" (env w))) in
  fst (gcs_rewrite hopen w st gsurl mode mode_has_colon argsp)
  = Returns (hopen call) st'
  /\ opener_calls (snd (gcs_rewrite hopen w st gsurl mode mode_has_colon argsp))
     = [call].
Proof.
  intros Hurl Htoken call.
  pose proof (provider_no_opener_calls w st) as Hquiet.
  unfold gcs_rewrite. rewrite Hurl, Htoken in *. cbn [fst snd] in *.
  split; [reflexivity|].
  rewrite !opener_calls_app, Hquiet.
  now destruct (hts_verbose w >=? 8)%Z.
Qed.

End TranslatorCalls.

(** X11.  [gcs_open] makes the two-argument call, with the mode as given,
    exactly when the provider returned no token and the billing project
    is unset; otherwise it appends a colon to the mode and passes options
    that start with a null [va_list]. *)
Theorem gcs_open_call (hFILE : Type) (hopen : hopen_call -> option hFILE)
    (w : world) (st st' : statics) (gsurl mode url : string)
    (access_token : option string) (tr : list event) :
  rewritten_url gsurl mode = Some url ->
  get_gcs_access_token w st = (Returns access_token st', tr) ->
  let calls := opener_calls (snd (gcs_open hopen w st gsurl mode)) in
  let project := getenv "GCS_REQUESTER_PAYS_PROJECT" (env w) in
  (access_token = None /\ project = None -> calls = [mkCall url mode []])
  /\ (access_token <> None \/ project <> None ->
      exists opts,
        calls = [mkCall url (mode ++ ":")
                   (ArgStr "va_list" :: ArgVaList None :: opts)]).
Proof.
  intros Hurl Htoken calls project. subst calls. unfold gcs_open.
  destruct (gcs_rewrite_returns hFILE hopen w st st' gsurl mode url 0 None
              access_token tr Hurl Htoken) as [_ ->].
  fold project. split.
  - intros [-> ->]. reflexivity.
  - intros H. unfold choose_call, kputc, kputs. cbn [is_null negb orb Z.eqb].
    assert (Hsome :
      (0 <? String.length (build_hdr "Authorization: Bearer " access_token))%nat
      || (0 <? String.length (build_hdr "X-Goog-User-Project: " project))%nat
      = true).
    { destruct access_token as [t|]; [reflexivity|].
      destruct project as [p|]; [reflexivity|].
      destruct H as [H | H]; now elim H. }
    rewrite Hsome. cbn [append].
    destruct (_ && _); eexists; reflexivity.
Qed.

Lemma gcs_open_call_witness :
  opener_calls
    (snd (gcs_open sample_hopen (mkWorld [] 0 1000 1000 PopenFails)
            initial_statics "gs://b/o" "r"))
  = [mkCall "https://b.storage-download.googleapis.com/o" "r" []]
  /\ exists opts,
       opener_calls
         (snd (gcs_open sample_hopen
                 (mkWorld [("GCS_OAUTH_TOKEN", "")] 0 1000 1000 PopenFails)
                 initial_statics "gs://b/o" "r"))
       = [mkCall "https://b.storage-download.googleapis.com/o" "r:"
            (ArgStr "va_list" :: ArgVaList None :: opts)].
Proof.
  split.
  - apply (proj1 (gcs_open_call string sample_hopen
                    (mkWorld [] 0 1000 1000 PopenFails)
                    initial_statics initial_statics "gs://b/o" "r"
                    "https://b.storage-download.googleapis.com/o"
                    None [] eq_refl eq_refl)).
    split; reflexivity.
  - apply (proj2 (gcs_open_call string sample_hopen
                    (mkWorld [("GCS_OAUTH_TOKEN", "")] 0 1000 1000 PopenFails)
                    initial_statics initial_statics "gs://b/o" "r"
                    "https://b.storage-download.googleapis.com/o"
                    (Some "") [] eq_refl eq_refl)).
    left. discriminate.
Defined.

(** X12.  [gcs_vopen] never makes the two-argument call and never touches
    the mode: the opener gets the caller's mode as it is and, first among
    the options, the caller's own argument list. *)
Theorem gcs_vopen_call (hFILE : Type) (hopen : hopen_call -> option hFILE)
    (w : world) (st st' : statics) (gsurl mode_colon url : string)
    (args0 : va_list) (access_token : option string) (tr : list event) :
  rewritten_url gsurl mode_colon = Some url ->
  get_gcs_access_token w st = (Returns access_token st', tr) ->
  exists opts,
    opener_calls (snd (gcs_vopen hopen w st gsurl mode_colon args0))
    = [mkCall url mode_colon
         (ArgStr "va_list" :: ArgVaList (Some args0) :: opts)].
Proof.
  intros Hurl Htoken. unfold gcs_vopen.
  destruct (gcs_rewrite_returns hFILE hopen w st st' gsurl mode_colon url 1
              (Some args0) access_token tr Hurl Htoken) as [_ ->].
  unfold choose_call. cbn [is_null negb orb Z.eqb].
  destruct (_ && _); eexists; reflexivity.
Qed.

Lemma gcs_vopen_call_witness :
  exists opts,
    opener_calls
      (snd (gcs_vopen sample_hopen (mkWorld [] 0 1000 1000 PopenFails)
              initial_statics "gs://b/o" "w:" [ArgStr "x"; ArgNull]))
    = [mkCall "https://b.storage-upload.googleapis.com/o" "w:"
         (ArgStr "va_list" :: ArgVaList (Some [ArgStr "x"; ArgNull]) :: opts)].
Proof.
  exact (gcs_vopen_call string sample_hopen
           (mkWorld [] 0 1000 1000 PopenFails)
           initial_statics initial_statics "gs://b/o" "w:"
           "https://b.storage-upload.googleapis.com/o"
           [ArgStr "x"; ArgNull] None [] eq_refl eq_refl).
Defined.

(** X13.  A token the provider returns always reaches the opener, as the
    header [Authorization: Bearer <token>], even when the token is the
    empty string: alone behind [httphdr] when the billing project is
    unset, and in front of the project header behind [httphdr:l] when it
    is set.  The mode gets its colon unless the caller said it has one. *)
Theorem token_header_passed
    (hFILE : Type) (hopen : hopen_call -> option hFILE)
    (w : world) (st st' : statics) (gsurl mode url token : string)
    (mode_has_colon : Z) (argsp : option va_list) (tr : list event) :
  rewritten_url gsurl mode = Some url ->
  get_gcs_access_token w st = (Returns (Some token) st', tr) ->
  let calls :=
    opener_calls
      (snd (gcs_rewrite hopen w st gsurl mode mode_has_colon argsp)) in
  let project := getenv "GCS_REQUESTER_PAYS_PROJECT" (env w) in
  (project = None ->
     calls = [mkCall url (with_colon mode mode_has_colon)
                [ArgStr "va_list"; ArgVaList argsp; ArgStr "httphdr";
                 ArgStr ("Authorization: Bearer " ++ token); ArgNull]])
  /\ (forall p, project = Some p ->
        calls = [mkCall url (with_colon mode mode_has_colon)
                   [ArgStr "va_list"; ArgVaList argsp; ArgStr "httphdr:l";
                    ArgStr ("Authorization: Bearer " ++ token);
                    ArgStr ("X-Goog-User-Project: " ++ p);
                    ArgNull; ArgNull]]).
Proof.
  intros Hurl Htoken calls project. subst calls.
  destruct (gcs_rewrite_returns hFILE hopen w st st' gsurl mode url
              mode_has_colon argsp (Some token) tr Hurl Htoken) as [_ ->].
  fold project. rewrite build_hdr_some.
  unfold choose_call, with_colon, kputc, kputs.
  rewrite (nonempty_append "Authorization: Bearer " token) by discriminate.
  rewrite !orb_true_r. cbn [orb andb append]. split.
  - intros ->. cbn [build_hdr String.length Nat.ltb Nat.leb].
    now destruct (mode_has_colon =? 0)%Z.
  - intros p ->. rewrite build_hdr_some.
    rewrite (nonempty_append "X-Goog-User-Project: " p) by discriminate.
    now destruct (mode_has_colon =? 0)%Z.
Qed.

Lemma token_header_passed_witness :
  opener_calls
    (snd (gcs_rewrite sample_hopen
            (mkWorld [("GCS_OAUTH_TOKEN", "")] 0 1000 1000 PopenFails)
            initial_statics "gs://b/o" "r" 0 None))
  = [mkCall "https://b.storage-download.googleapis.com/o"
       (with_colon "r" 0)
       [ArgStr "va_list"; ArgVaList None; ArgStr "httphdr";
        ArgStr ("Authorization: Bearer " ++ ""); ArgNull]].
Proof.
  apply (proj1 (token_header_passed string sample_hopen
                  (mkWorld [("GCS_OAUTH_TOKEN", "")] 0 1000 1000 PopenFails)
                  initial_statics initial_statics "gs://b/o" "r"
                  "https://b.storage-download.googleapis.com/o" ""
                  0 None [] eq_refl eq_refl)).
  reflexivity.
Defined.

(** X14.  The translator aborts exactly when the provider does, and then
    the opener is never called; the line on the error stream, if any, has
    been written by then. *)
Theorem translator_aborts_with_provider
    (hFILE : Type) (hopen : hopen_call -> option hFILE)
    (w : world) (st : statics) (gsurl mode url : string)
    (mode_has_colon : Z) (argsp : option va_list) :
  rewritten_url gsurl mode = Some url ->
  let result := gcs_rewrite hopen w st gsurl mode mode_has_colon argsp in
  (fst result = Aborts <-> fst (get_gcs_access_token w st) = Aborts)
  /\ (fst result = Aborts -> opener_calls (snd result) = []).
Proof.
  intros Hurl result. subst result.
  pose proof (provider_no_opener_calls w st) as Hquiet.
  unfold gcs_rewrite. rewrite Hurl.
  destruct (get_gcs_access_token w st) as [[r st' | |] tr];
    cbn [fst snd] in *.
  - split; [split; discriminate | discriminate].
  - split; [tauto|]. intros _. rewrite opener_calls_app, Hquiet.
    now destruct (hts_verbose w >=? 8)%Z.
  - split; [split; discriminate | discriminate].
Qed.

Lemma translator_aborts_with_provider_witness :
  opener_calls
    (snd (gcs_rewrite sample_hopen
            (mkWorld credentials_env 9 1000 1000 (Line (filled 2049 "a")))
            initial_statics "gs://b/o" "r" 0 None))
  = [].
Proof.
  apply (proj2 (translator_aborts_with_provider string sample_hopen
                  (mkWorld credentials_env 9 1000 1000 (Line (filled 2049 "a")))
                  initial_statics "gs://b/o" "r"
                  "https://b.storage-download.googleapis.com/o" 0 None
                  eq_refl)).
  vm_compute. reflexivity.
Defined.

(* ================================================================== *)
(** ** More on the rewritten URL *)

Section UrlFacts.

Lemma length_append (a b : string) :
  String.length (a ++ b) = (String.length a + String.length b)%nat.
Proof. induction a as [|x a IH]; simpl; auto. Qed.

Lemma append_inv_head (a x y : string) : a ++ x = a ++ y -> x = y.
Proof.
  induction a as [|c a IH]; simpl; [auto|].
  intros H. injection H as H. auto.
Qed.

Lemma append_same_length (a a' x x' : string) :
  String.length a = String.length a' ->
  a ++ x = a' ++ x' -> a = a' /\ x = x'.
Proof.
  revert a'. induction a as [|c a IH]; intros [|c' a'] L H;
    simpl in *; try discriminate; auto.
  injection H as -> H. injection L as L.
  destruct (IH a' L H) as [-> ->]. auto.
Qed.

Lemma chars_append (a b : string) (c : ascii) :
  In c (chars (a ++ b)) -> In c (chars a) \/ In c (chars b).
Proof.
  induction a as [|x a IH]; simpl; [auto|].
  intros [-> | H]; [auto|]. destruct (IH H); auto.
Qed.

(** A run of slashes in front of a text that opens with none is read
    back in one way only. *)
Lemma slashes_unique (n n' : nat) (x x' : string) :
  (forall p, x <> String "/" p) ->
  (forall p, x' <> String "/" p) ->
  filled n "/" ++ x = filled n' "/" ++ x' -> n = n' /\ x = x'.
Proof.
  intros Hx Hx'. revert n'.
  induction n as [|n IH]; intros [|n'] H; simpl in H.
  - auto.
  - now elim (Hx (filled n' "/" ++ x')).
  - symmetry in H. now elim (Hx' (filled n "/" ++ x)).
  - injection H as H. destruct (IH n' H) as [-> ->]. auto.
Qed.

(** The one host suffix a mode selects. *)
Lemma storage_host_uniform (mode : string) :
  exists host,
    In host ["storage-download"; "storage-upload"; "storage"]
    /\ forall url, put_storage_host mode url = url ++ "." ++ host.
Proof.
  unfold put_storage_host.
  destruct (has_char mode "r");
    [| destruct (has_char mode "w")]; eexists; simpl; eauto.
Qed.

Lemma host_has_no_delimiter (host : string) (c : ascii) :
  In host ["storage-download"; "storage-upload"; "storage"] ->
  In c (chars ("." ++ host ++ ".googleapis.com")) -> ~ delimiter c.
Proof.
  intros Hh Hc Hd. apply delimiter_has_char in Hd.
  simpl in Hh. destruct Hh as [<- | [<- | [<- | []]]]; simpl in Hc;
    repeat (destruct Hc as [<- | Hc]; [discriminate Hd|]); exact Hc.
Qed.

(** Every text is slashes, bucket and path. *)
Lemma text_splits (text : string) :
  exists n bucket path,
    text = filled n "/" ++ bucket ++ path
    /\ splits_at_delimiter bucket path.
Proof.
  destruct (slashes_then_rest text) as (n & rest & -> & Hrest).
  destruct (bucket_then_path rest) as (bucket & path & -> & Hb & Hp).
  exists n, bucket, path. split; [reflexivity|]. split; [exact Hb|].
  destruct Hp as [-> | (c & p & -> & Hc)]; [now left|].
  right. exists c, p. split; [reflexivity|]. split; [exact Hc|].
  intros -> ->. now apply (Hrest p).
Qed.

Lemma rewritten_url_split_injective
    (scheme transport mode : string) (n n' : nat)
    (bucket bucket' path path' : string) :
  In (scheme, transport) scheme_transport ->
  splits_at_delimiter bucket path ->
  splits_at_delimiter bucket' path' ->
  rewritten_url (scheme ++ ":" ++ filled n "/" ++ bucket ++ path) mode
  = rewritten_url (scheme ++ ":" ++ filled n' "/" ++ bucket' ++ path') mode ->
  n = n' /\ bucket = bucket' /\ path = path'.
Proof.
  intros Hs H H'.
  rewrite (rewritten_url_slashes _ _ _ _ mode n Hs H).
  rewrite (rewritten_url_slashes _ _ _ _ mode n' Hs H').
  destruct (storage_host_uniform mode) as (host & Hin & Hhost).
  rewrite !Hhost. unfold kputs. intros E. injection E as E.
  set (S := "." ++ host ++ ".googleapis.com") in *.
  assert (R : forall m b p,
             (((transport ++ ":" ++ filled m "/" ++ b) ++ "." ++ host)
                ++ ".googleapis.com") ++ p
             = transport ++ ":" ++ filled m "/" ++ (b ++ S) ++ p).
  { intros m b p. unfold S. rewrite !append_assoc. simpl.
    now rewrite ?append_assoc. }
  assert (E2 : transport ++ ":" ++ filled n "/" ++ (bucket ++ S) ++ path
               = transport ++ ":" ++ filled n' "/" ++ (bucket' ++ S) ++ path')
    by (rewrite <- (R n bucket path), <- (R n' bucket' path'); exact E).
  clear E R. rename E2 into E.
  apply append_inv_head in E. apply (append_inv_head ":") in E.
  assert (NS : forall b p q, splits_at_delimiter b p ->
                 (b ++ S) ++ p <> String "/" q).
  { intros b p q [Hb _]. destruct b as [|x b]; simpl.
    - unfold S. simpl. discriminate.
    - intros K. injection K as -> _. apply (Hb "/"%char); [now left|].
      now left. }
  destruct (slashes_unique n n' _ _ (fun q => NS _ _ q H)
              (fun q => NS _ _ q H') E) as [-> E'].
  split; [reflexivity|].
  assert (ND : forall b p, splits_at_delimiter b p ->
                 strcspn ((b ++ S) ++ p) "/?#" = String.length (b ++ S)).
  { intros b p [Hb Hp]. apply strcspn_bucket.
    - intros c Hc. apply chars_append in Hc as [Hc | Hc]; [now apply Hb|].
      exact (host_has_no_delimiter host c Hin Hc).
    - destruct Hp as [-> | (c & q & -> & Hc & _)]; [now left|].
      right. now exists c, q. }
  assert (L : String.length (bucket ++ S) = String.length (bucket' ++ S)).
  { rewrite <- (ND _ _ H), <- (ND _ _ H'). now rewrite E'. }
  destruct (append_same_length _ _ _ _ L E') as [Eb ->].
  split; [| reflexivity].
  rewrite !length_append in L.
  assert (Lb : String.length bucket = String.length bucket') by lia.
  now destruct (append_same_length _ _ _ _ Lb Eb).
Qed.

(** The scheme part for any subscheme that has no colon. *)
Lemma scheme_part_plus (sub rest : string) :
  ~ In ":"%char (chars sub) ->
  scheme_part ("gs+" ++ sub ++ ":" ++ rest) = Some (rest, sub ++ ":").
Proof.
  intros Hsub. unfold scheme_part.
  change (String.get 2 ("gs+" ++ sub ++ ":" ++ rest)) with (Some "+"%char).
  cbn [Ascii.eqb Bool.eqb]. 
  assert (E : strchr ("gs+" ++ sub ++ ":" ++ rest) ":"
              = Some (3 + String.length sub)%nat).
  { change ("gs+" ++ sub ++ ":" ++ rest)
      with (String "g" (String "s" (String "+" (sub ++ String ":" rest)))).
    cbn [strchr Ascii.eqb Bool.eqb].
    now rewrite (strchr_append sub rest ":" Hsub). }
  rewrite E.
  destruct (Nat.ltb_spec (3 + String.length sub) 3) as [L | _]; [lia|].
  unfold kputsn. f_equal. f_equal.
  - change (drop (S (3 + String.length sub)) ("gs+" ++ sub ++ ":" ++ rest))
      with (drop (S (String.length sub)) (sub ++ String ":" rest)).
    change (sub ++ String ":" rest) with (sub ++ ":" ++ rest).
    rewrite <- (append_assoc sub ":" rest).
    replace (S (String.length sub)) with (String.length (sub ++ ":"))
      by (rewrite length_append; simpl; lia).
    apply drop_append.
  - change (drop 3 ("gs+" ++ sub ++ ":" ++ rest)) with (sub ++ ":" ++ rest).
    replace (S (3 + String.length sub) - 3)%nat
      with (String.length (sub ++ ":"))
      by (rewrite length_append; simpl; lia).
    rewrite <- (append_assoc sub ":" rest). cbn [append].
    apply take_append.
Qed.

End UrlFacts.

(** X15.  For one registered scheme and one mode, two different inputs
    never give the same target URL: from the target, the slashes, the
    bucket and the path of the input can be read back. *)
Theorem rewritten_url_distinct
    (scheme transport mode text text' : string) :
  In (scheme, transport) scheme_transport ->
  text <> text' ->
  rewritten_url (scheme ++ ":" ++ text) mode
  <> rewritten_url (scheme ++ ":" ++ text') mode.
Proof.
  intros Hs Hne E. apply Hne.
  destruct (text_splits text) as (n & b & p & -> & H).
  destruct (text_splits text') as (n' & b' & p' & -> & H').
  destruct (rewritten_url_split_injective _ _ _ _ _ _ _ _ _ Hs H H' E)
    as (-> & -> & ->).
  reflexivity.
Qed.

Lemma rewritten_url_distinct_witness :
  rewritten_url ("gs" ++ ":" ++ "//b.storage.googleapis.com/o") "r"
  <> rewritten_url ("gs" ++ ":" ++ "//b/o") "r".
Proof.
  apply (rewritten_url_distinct "gs" "https" "r").
  - simpl. left. reflexivity.
  - discriminate.
Defined.

(** X16.  The subscheme behind [gs+] is not checked against any list:
    whatever it is, as long as it holds no colon, it becomes the transport
    of the target URL as it stands. *)
Theorem subscheme_is_verbatim (sub bucket path mode : string) :
  ~ In ":"%char (chars sub) ->
  splits_at_delimiter bucket path ->
  exists host,
    In host ["storage-download"; "storage-upload"; "storage"]
    /\ rewritten_url ("gs+" ++ sub ++ "://" ++ bucket ++ path) mode
       = Some (target sub bucket host path).
Proof.
  intros Hsub H.
  destruct (storage_host_uniform mode) as (host & Hin & Hhost).
  exists host. split; [exact Hin|]. unfold rewritten_url.
  change ("gs+" ++ sub ++ "://" ++ bucket ++ path)
    with ("gs+" ++ sub ++ ":" ++ ("//" ++ bucket ++ path)).
  rewrite (scheme_part_plus sub _ Hsub), copy_two_slashes.
  rewrite (rest_of_url bucket path _ mode H), Hhost.
  unfold kputs, target. f_equal.
  rewrite !append_assoc. simpl. now rewrite ?append_assoc.
Qed.

Lemma subscheme_is_verbatim_witness :
  exists host,
    In host ["storage-download"; "storage-upload"; "storage"]
    /\ rewritten_url "gs+ftp://my-bucket/dir/obj.bam?x=1#top" "r"
       = Some (target "ftp" "my-bucket" host "/dir/obj.bam?x=1#top").
Proof.
  apply (subscheme_is_verbatim "ftp" "my-bucket" "/dir/obj.bam?x=1#top" "r").
  - simpl. intros [H | [H | [H | H]]]; try discriminate H. exact H.
  - exact splits_my_bucket.
Defined.

(** X17.  The loop of line 115 only moves bytes: it takes a run of
    slashes off the front of [bucket] and puts it at the end of [url], so
    the two read together as before, and it stops in front of a byte that
    is no slash. *)
Theorem copy_slashes_moves (bucket url : string) :
  exists n,
    fst (copy_slashes bucket url) = drop n bucket
    /\ snd (copy_slashes bucket url) = url ++ filled n "/"
    /\ snd (copy_slashes bucket url) ++ fst (copy_slashes bucket url)
       = url ++ bucket
    /\ forall p, fst (copy_slashes bucket url) <> String "/" p.
Proof.
  revert url. induction bucket as [|a b IH]; intros url.
  - exists O. simpl. rewrite append_empty_r. repeat split. discriminate.
  - destruct (Ascii.eqb_spec a "/") as [-> | Ha].
    + destruct (IH (kputc "/" url)) as (n & H1 & H2 & H3 & H4).
      exists (S n). cbn [copy_slashes drop]. unfold kputc in *.
      rewrite H1, H2 in *. repeat split.
      * now rewrite append_assoc.
      * rewrite H3. now rewrite append_assoc.
      * exact H4.
    + exists O.
      assert (E : copy_slashes (String a b) url = (String a b, url)).
      { simpl. destruct a as [[] [] [] [] [] [] [] []]; try reflexivity.
        now elim Ha. }
      rewrite E. cbn [fst snd drop filled]. rewrite append_empty_r.
      repeat split. intros p K. injection K as K _. contradiction.
Qed.

Lemma copy_slashes_moves_witness :
  exists n,
    fst (copy_slashes "///obj" "https:") = drop n "///obj"
    /\ snd (copy_slashes "///obj" "https:") = "https:" ++ filled n "/"
    /\ snd (copy_slashes "///obj" "https:") ++ fst (copy_slashes "///obj" "https:")
       = "https:" ++ "///obj"
    /\ forall p, fst (copy_slashes "///obj" "https:") <> String "/" p.
Proof.
  exact (copy_slashes_moves "///obj" "https:").
Defined.
